(** * Disaster environment simulator and sensor agent

    A shallow embedding of [disaster_environment.py] and of the monitoring
    behaviour of [sensor_agent.py], with the properties the design
    document states about them.

    Conventions of the embedding:
    - a Python [float] is an exact rational ([Q]) and arithmetic does not
      round; the three rule thresholds, the clamp bounds and the severity
      cut-offs 0.25, 0.5 and 0.75 are doubles, and the literal 0.1, which
      is not, keeps the value of its double; where the bucket of a
      severity ratio depends on the rounding, the severity computation is
      taken in binary64 (module [Binary64]);
    - the ambient services the source reaches through globals ([random],
      [datetime.now], the message transport) live in a [World] value
      threaded through a state-and-exception monad [M];
    - a method that mutates [self] takes the object and returns the new one;
    - [print] calls are left out. *)

From Stdlib Require Import ZArith NArith QArith Qfield Lqa Lia List String Bool.
From Stdlib Require Import Sorted.
From Stdlib Require SpecFloat.
Import ListNotations.

Local Open Scope Q_scope.

(* ------------------------------------------------------------------ *)
(** ** Python runtime *)

(** [str(x)] for a float [x]: the only formatting routine whose result is
    stored in a value the model keeps. *)
Class PyRuntime := { float_repr : Q -> string }.

Inductive PyExn :=
| ZeroDivisionError
| IndexError.

Inductive Result (A : Type) :=
| Ok (a : A)
| Raise (e : PyExn).
Arguments Ok {A} a.
Arguments Raise {A} e.

Definition Qltb (a b : Q) : bool := negb (Qle_bool b a).

(** [min(a, b)] and [max(a, b)] keep the first argument unless the second
    one is strictly smaller (resp. larger). *)
Definition py_min (a b : Q) : Q := if Qltb b a then b else a.
Definition py_max (a b : Q) : Q := if Qltb a b then b else a.

(** The literal [0.1]: the double nearest to one tenth. *)
Definition float_0_1 : Q := 3602879701896397 # 36028797018963968.

(** True division raises on a zero divisor, for ints and floats alike. *)
Definition py_div (a b : Q) : Result Q :=
  if Qeq_bool b 0 then Raise ZeroDivisionError else Ok (a / b).

(** The body of a report handed to the transport (the dictionary that
    [_report_disaster] serialises); the timestamp stays a clock reading. *)
Record Report := mkReport {
  event_type : string;
  report_disaster_type : string;
  report_severity : string;
  report_location : string;
  coordinates : Q * Q;
  report_timestamp : Z;
  sensor_id : string
}.

(** What the program observably does to the outside, in order: which
    environment methods were entered and which reports were handed to the
    transport. *)
Inductive Effect :=
| Called (method : string)
| Sent (to : string) (body : Report).

(** [entropy] is the stream of raw words of the generator and [drawn]
    how many were consumed; [clock] is the stream of successive readings
    of [datetime.now()] and [read] how many were taken. *)
Record World := mkWorld {
  entropy : nat -> N;
  drawn : nat;
  clock : nat -> Z;
  read : nat;
  trace : list Effect
}.

Definition M (A : Type) : Type := World -> Result A * World.

Definition ret {A} (a : A) : M A := fun w => (Ok a, w).

Definition bind {A B} (m : M A) (k : A -> M B) : M B :=
  fun w =>
    match m w with
    | (Ok a, w') => k a w'
    | (Raise e, w') => (Raise e, w')
    end.

Definition lift {A} (r : Result A) : M A := fun w => (r, w).

Definition emit (e : Effect) : M unit :=
  fun w => (Ok tt, mkWorld (entropy w) (drawn w) (clock w) (read w)
                           (trace w ++ [e])).

Definition next_word : M N :=
  fun w => (Ok (entropy w (drawn w)),
            mkWorld (entropy w) (S (drawn w)) (clock w) (read w) (trace w)).

(** [random.random()]: 53 random bits scaled into [0, 1). *)
Definition random : M Q :=
  bind next_word (fun b => ret (Z.of_N (b mod 2 ^ 53) # 2 ^ 53)).

(** [random.uniform(a, b)] is [a + (b - a) * random()]. *)
Definition uniform (a b : Q) : M Q :=
  bind random (fun u => ret (a + (b - a) * u)).

(** [random.choice(seq)]: [IndexError] on an empty sequence, else the
    element at an index below [len(seq)]. *)
Definition choice {A} (seq : list A) : M A :=
  match seq with
  | [] => lift (Raise IndexError)
  | x :: _ =>
      bind next_word (fun b =>
        ret (nth (N.to_nat (b mod N.of_nat (List.length seq))) seq x))
  end.

(** [datetime.now()]. *)
Definition now : M Z :=
  fun w => (Ok (clock w (read w)),
            mkWorld (entropy w) (drawn w) (clock w) (S (read w)) (trace w)).

(** [for x in xs: body], where the body updates the local state [s]. *)
Fixpoint for_loop {A S} (body : A -> S -> M S) (xs : list A) (s : S) : M S :=
  match xs with
  | [] => ret s
  | x :: rest => bind (body x s) (for_loop body rest)
  end.

(** A comprehension [[body(x) for x in xs]], or a loop that replaces each
    element by what the body leaves of it. *)
Fixpoint for_each {A B} (body : A -> M B) (xs : list A) : M (list B) :=
  match xs with
  | [] => ret []
  | x :: rest =>
      bind (body x) (fun b =>
      bind (for_each body rest) (fun bs => ret (b :: bs)))
  end.

Declare Scope py_scope.
Delimit Scope py_scope with py.
Notation "x <- m ;; k" := (bind m (fun x => k))
  (at level 61, m at next level, right associativity) : py_scope.
Notation "' pat <- m ;; k" :=
  (bind m (fun x => match x with pat => k end))
  (at level 61, pat pattern, m at next level, right associativity) : py_scope.
Notation "m ;;; k" := (bind m (fun _ => k))
  (at level 61, right associativity) : py_scope.
Local Open Scope py_scope.

(* ------------------------------------------------------------------ *)
(** ** disaster_environment.py *)

Module DisasterType.
Inductive t := FLOOD | EARTHQUAKE | FIRE | NONE.

Definition value (d : t) : string :=
  match d with
  | FLOOD => "flood"
  | EARTHQUAKE => "earthquake"
  | FIRE => "fire"
  | NONE => "none"
  end.
End DisasterType.

Module SeverityLevel.
Inductive t := NONE | LOW | MEDIUM | HIGH | CRITICAL.

Definition value (s : t) : Z :=
  match s with
  | NONE => 0
  | LOW => 1
  | MEDIUM => 2
  | HIGH => 3
  | CRITICAL => 4
  end%Z.

Definition name (s : t) : string :=
  match s with
  | NONE => "NONE"
  | LOW => "LOW"
  | MEDIUM => "MEDIUM"
  | HIGH => "HIGH"
  | CRITICAL => "CRITICAL"
  end.
End SeverityLevel.

Module Location.
Record t := mk { x : Q; y : Q; name : string }.

(** [self.name = name or f"Location({x}, {y})"]. *)
Definition init `{PyRuntime} (x y : Q) (name : string) : t :=
  mk x y
     (match name with
      | EmptyString =>
          "Location(" ++ float_repr x ++ ", " ++ float_repr y ++ ")"
      | _ => name
      end)%string.

Definition str (self : t) : string := name self.
End Location.

Module DisasterEvent.
Record t := mk {
  disaster_type : DisasterType.t;
  severity : SeverityLevel.t;
  location : Location.t;
  timestamp : Z;
  active : bool
}.

(** [self.timestamp = timestamp or datetime.now()]: the clock is read only
    when no timestamp is passed. *)
Definition init (disaster_type : DisasterType.t)
    (severity : SeverityLevel.t) (location : Location.t)
    (timestamp : option Z) : M t :=
  ts <- match timestamp with
        | Some ts => ret ts
        | None => now
        end ;;
  ret (mk disaster_type severity location ts true).
End DisasterEvent.

Module EnvironmentalConditions.
Record t := mk {
  location : Location.t;
  temperature : Q;
  humidity : Q;
  wind_speed : Q;
  water_level : Q;
  smoke_level : Q;
  seismic_activity : Q
}.

Definition init (location : Location.t) : M t :=
  temperature <- uniform 15 35 ;;
  humidity <- uniform 30 90 ;;
  wind_speed <- uniform 0 50 ;;
  water_level <- uniform 0 100 ;;
  smoke_level <- uniform 0 100 ;;
  seismic_activity <- uniform 0 10 ;;
  ret (mk location temperature humidity wind_speed water_level
          smoke_level seismic_activity).

Definition update (self : t) : M t :=
  d <- uniform (-2) 2 ;;
  let temperature := temperature self + d in
  d <- uniform (-5) 5 ;;
  let humidity := humidity self + d in
  d <- uniform (-5) 5 ;;
  let wind_speed := wind_speed self + d in
  d <- uniform (-10) 10 ;;
  let water_level := water_level self + d in
  d <- uniform (-10) 10 ;;
  let smoke_level := smoke_level self + d in
  d <- uniform (-1) 1 ;;
  let seismic_activity := seismic_activity self + d in
  (* Keep values in reasonable ranges *)
  let temperature := py_max 0 (py_min 50 temperature) in
  let humidity := py_max 0 (py_min 100 humidity) in
  let wind_speed := py_max 0 (py_min 100 wind_speed) in
  let water_level := py_max 0 (py_min 200 water_level) in
  let smoke_level := py_max 0 (py_min 500 smoke_level) in
  let seismic_activity := py_max 0 (py_min 10 seismic_activity) in
  ret (mk (location self) temperature humidity wind_speed water_level
          smoke_level seismic_activity).
End EnvironmentalConditions.

Module DisasterEnvironment.
Record t := mk {
  locations : list Location.t;
  conditions : list (Location.t * EnvironmentalConditions.t);
  active_disasters : list DisasterEvent.t;
  event_history : list DisasterEvent.t
}.

Definition location_names : list string :=
  [ "Downtown"; "Harbor District"; "Industrial Zone";
    "Residential Area"; "Hospital District"; "Airport";
    "Shopping Center"; "University Campus"; "Power Plant";
    "Water Treatment Facility" ]%string.

(** [range(n)] for an int [n]: empty when [n] is not positive. *)
Definition range (n : Z) : list nat := seq 0 (Z.to_nat n).

Definition _generate_locations `{PyRuntime} (num : Z) : M (list Location.t) :=
  let locations := [] in
  for_loop
    (fun i locations =>
       x <- uniform 0 100 ;;
       y <- uniform 0 100 ;;
       name <- match nth_error location_names i with
               | Some name => ret name
               | None => lift (Raise IndexError)
               end ;;
       ret (locations ++ [Location.init x y name]))
    (range (Z.min num (Z.of_nat (List.length location_names))))
    locations.

(** A [Location] defines neither [__eq__] nor [__hash__], so the dictionary
    [self.conditions] is keyed by object identity: the comprehension leaves
    one entry per element of [self.locations], in that order. *)
Definition init `{PyRuntime} (num_locations : Z) : M t :=
  locations <- _generate_locations num_locations ;;
  conditions <- for_each
                  (fun loc =>
                     c <- EnvironmentalConditions.init loc ;;
                     ret (loc, c))
                  locations ;;
  ret (mk locations conditions [] []).

Definition update_conditions (self : t) : M t :=
  emit (Called "update_conditions") ;;;
  conditions <- for_each
                  (fun kv =>
                     c <- EnvironmentalConditions.update (snd kv) ;;
                     ret (fst kv, c))
                  (conditions self) ;;
  ret (mk (locations self) conditions
          (active_disasters self) (event_history self)).

Definition _calculate_severity (value threshold max_value : Q)
  : Result SeverityLevel.t :=
  if Qltb value threshold then Ok SeverityLevel.NONE
  else
    match py_div (value - threshold) (max_value - threshold) with
    | Raise e => Raise e
    | Ok ratio =>
        if Qltb ratio (1 # 4) then Ok SeverityLevel.LOW
        else if Qltb ratio (1 # 2) then Ok SeverityLevel.MEDIUM
        else if Qltb ratio (3 # 4) then Ok SeverityLevel.HIGH
        else Ok SeverityLevel.CRITICAL
    end.

(** The body of the loop of [detect_disasters], on one item of
    [self.conditions.items()]. *)
Definition detect_at (item : Location.t * EnvironmentalConditions.t)
    (new_disasters : list DisasterEvent.t) : M (list DisasterEvent.t) :=
  let (location, conditions) := item in
  (* Check for flood *)
  new_disasters <-
    (if Qltb 150 (EnvironmentalConditions.water_level conditions) then
       severity <- lift (_calculate_severity
                           (EnvironmentalConditions.water_level conditions)
                           150 200) ;;
       event <- DisasterEvent.init DisasterType.FLOOD severity location None ;;
       ret (new_disasters ++ [event])
     else ret new_disasters) ;;
  (* Check for fire *)
  new_disasters <-
    (if Qltb 300 (EnvironmentalConditions.smoke_level conditions) then
       severity <- lift (_calculate_severity
                           (EnvironmentalConditions.smoke_level conditions)
                           300 500) ;;
       event <- DisasterEvent.init DisasterType.FIRE severity location None ;;
       ret (new_disasters ++ [event])
     else ret new_disasters) ;;
  (* Check for earthquake *)
  (if Qltb 5 (EnvironmentalConditions.seismic_activity conditions) then
     severity <- lift (_calculate_severity
                         (EnvironmentalConditions.seismic_activity conditions)
                         5 10) ;;
     event <- DisasterEvent.init DisasterType.EARTHQUAKE severity location
                                 None ;;
     ret (new_disasters ++ [event])
   else ret new_disasters).

Definition detect_disasters (self : t) : M (list DisasterEvent.t * t) :=
  emit (Called "detect_disasters") ;;;
  new_disasters <- for_loop detect_at (conditions self) [] ;;
  (* Add new disasters to active list and history *)
  ret (new_disasters,
       mk (locations self) (conditions self)
          (active_disasters self ++ new_disasters)
          (event_history self ++ new_disasters)).

Definition get_all_conditions (self : t)
  : list (Location.t * EnvironmentalConditions.t) := conditions self.

Definition get_active_disasters (self : t) : list DisasterEvent.t :=
  active_disasters self.

Definition simulate_random_disaster (self : t) : M (DisasterEvent.t * t) :=
  emit (Called "simulate_random_disaster") ;;;
  disaster_type <- choice [DisasterType.FLOOD; DisasterType.EARTHQUAKE;
                           DisasterType.FIRE] ;;
  severity <- choice [SeverityLevel.LOW; SeverityLevel.MEDIUM;
                      SeverityLevel.HIGH; SeverityLevel.CRITICAL] ;;
  location <- choice (locations self) ;;
  event <- DisasterEvent.init disaster_type severity location None ;;
  ret (event,
       mk (locations self) (conditions self)
          (active_disasters self ++ [event])
          (event_history self ++ [event])).
End DisasterEnvironment.

(* ------------------------------------------------------------------ *)
(** ** sensor_agent.py *)

Module SensorAgent.
(** An entry of [detected_events]; the timestamp stays a clock reading. *)
Record LogEntry := mkEntry {
  entry_timestamp : Z;
  entry_type : string;
  entry_severity : string;
  entry_location : string;
  entry_coordinates : Q * Q
}.

Record t := mk {
  jid : string;
  num_locations : Z;
  monitoring_interval : Q;
  coordinator_jid : option string;
  simulate_disasters : bool;
  environment : DisasterEnvironment.t;
  detected_events : list LogEntry
}.

(** [super().__init__(jid, password)] belongs to the agent runtime; of its
    state only [jid] is read back by this program. *)
Definition init `{PyRuntime} (jid password : string) (num_locations : Z)
    (monitoring_interval : Q) (coordinator_jid : option string)
    (simulate_disasters : bool) : M t :=
  (* Initialize environment *)
  environment <- DisasterEnvironment.init num_locations ;;
  (* Event tracking *)
  ret (mk jid num_locations monitoring_interval coordinator_jid
          simulate_disasters environment []).

Definition set_environment (self : t) (env : DisasterEnvironment.t) : t :=
  mk (jid self) (num_locations self) (monitoring_interval self)
     (coordinator_jid self) (simulate_disasters self) env
     (detected_events self).
End SensorAgent.

Module EnvironmentMonitoringBehaviour.
Definition _log_disaster_event (agent : SensorAgent.t)
    (disaster : DisasterEvent.t) : SensorAgent.t :=
  let loc := DisasterEvent.location disaster in
  (* Save to agent's event log *)
  SensorAgent.mk
    (SensorAgent.jid agent) (SensorAgent.num_locations agent)
    (SensorAgent.monitoring_interval agent)
    (SensorAgent.coordinator_jid agent)
    (SensorAgent.simulate_disasters agent)
    (SensorAgent.environment agent)
    (SensorAgent.detected_events agent ++
       [SensorAgent.mkEntry
          (DisasterEvent.timestamp disaster)
          (DisasterType.value (DisasterEvent.disaster_type disaster))
          (SeverityLevel.name (DisasterEvent.severity disaster))
          (Location.str loc)
          (Location.x loc, Location.y loc)]).

(** [if self.agent.coordinator_jid:] holds for a non-empty string only. *)
Definition _report_disaster (agent : SensorAgent.t)
    (disaster : DisasterEvent.t) : M unit :=
  match SensorAgent.coordinator_jid agent with
  | None | Some EmptyString => ret tt
  | Some to =>
      let loc := DisasterEvent.location disaster in
      emit (Sent to
              (mkReport "disaster_detected"
                 (DisasterType.value (DisasterEvent.disaster_type disaster))
                 (SeverityLevel.name (DisasterEvent.severity disaster))
                 (Location.str loc)
                 (Location.x loc, Location.y loc)
                 (DisasterEvent.timestamp disaster)
                 (SensorAgent.jid agent)))
  end.

(** [run], up to the report of what was detected. *)
Definition monitor (agent : SensorAgent.t) : M SensorAgent.t :=
  timestamp <- now ;;
  (* Update environmental conditions *)
  environment <- DisasterEnvironment.update_conditions
                   (SensorAgent.environment agent) ;;
  (* Get current conditions for all locations; logging them only prints *)
  let all_conditions := DisasterEnvironment.get_all_conditions environment in
  (* Detect disasters *)
  '(new_disasters, environment) <-
     DisasterEnvironment.detect_disasters environment ;;
  let agent := SensorAgent.set_environment agent environment in
  for_loop
    (fun disaster agent =>
       let agent := _log_disaster_event agent disaster in
       _report_disaster agent disaster ;;;
       ret agent)
    new_disasters agent.

(** The last statement of [run]:
    optionally simulate a random disaster (10% chance). *)
Definition stimulate (agent : SensorAgent.t) : M SensorAgent.t :=
  if SensorAgent.simulate_disasters agent
     && Nat.ltb (List.length
                   (DisasterEnvironment.active_disasters
                      (SensorAgent.environment agent))) 3
  then
    draw <- random ;;
    if Qltb draw float_0_1 then
      '(simulated, environment) <-
         DisasterEnvironment.simulate_random_disaster
           (SensorAgent.environment agent) ;;
      let agent := SensorAgent.set_environment agent environment in
      let agent := _log_disaster_event agent simulated in
      _report_disaster agent simulated ;;;
      ret agent
    else ret agent
  else ret agent.

Definition run (agent : SensorAgent.t) : M SensorAgent.t :=
  agent <- monitor agent ;;
  stimulate agent.
End EnvironmentMonitoringBehaviour.


(* ------------------------------------------------------------------ *)
(** ** The severity computation in binary64 *)

Module Binary64.
(** A Python float: an IEEE 754 binary64 number, 53 bits of mantissa and
    infinities at exponent 1024, every operation rounded to nearest
    even. *)
Definition float : Type := SpecFloat.spec_float.

(** The float of an int, and the float [m * 2^e] of a dyadic literal. *)
Definition of_int (z : Z) : float :=
  SpecFloat.binary_normalize 53 1024 z 0 false.
Definition dyadic (m e : Z) : float :=
  SpecFloat.binary_normalize 53 1024 m e false.

Definition zero : float := SpecFloat.S754_zero false.

Definition ltb (a b : float) : bool := SpecFloat.SFltb a b.
Definition leb (a b : float) : bool := SpecFloat.SFleb a b.
Definition eqb (a b : float) : bool := SpecFloat.SFeqb a b.
Definition sub (a b : float) : float := SpecFloat.SFsub 53 1024 a b.

(** True division: raises on a divisor that compares equal to zero, of
    either sign. *)
Definition truediv (a b : float) : Result float :=
  if eqb b zero then Raise ZeroDivisionError
  else Ok (SpecFloat.SFdiv 53 1024 a b).

(** The literals [0.25], [0.5] and [0.75]. *)
Definition lit_0_25 : float := dyadic 1 (-2).
Definition lit_0_5 : float := dyadic 1 (-1).
Definition lit_0_75 : float := dyadic 3 (-2).

Definition _calculate_severity (value threshold max_value : float)
  : Result SeverityLevel.t :=
  if ltb value threshold then Ok SeverityLevel.NONE
  else
    match truediv (sub value threshold) (sub max_value threshold) with
    | Raise e => Raise e
    | Ok ratio =>
        if ltb ratio lit_0_25 then Ok SeverityLevel.LOW
        else if ltb ratio lit_0_5 then Ok SeverityLevel.MEDIUM
        else if ltb ratio lit_0_75 then Ok SeverityLevel.HIGH
        else Ok SeverityLevel.CRITICAL
    end.

(** The real number a finite float stands for. *)
Definition exact (x : float) : Q :=
  match x with
  | SpecFloat.S754_finite s m e =>
      let n := if s then Z.neg m else Z.pos m in
      match e with
      | Z0 => inject_Z n
      | Zpos p => inject_Z (n * 2 ^ Zpos p)
      | Zneg p => n # 2 ^ p
      end
  | _ => 0
  end.

(** The literals [0.1] and [0.9]: the doubles nearest to one tenth and to
    nine tenths. *)
Definition lit_0_1 : float := SpecFloat.SFdiv 53 1024 (of_int 1) (of_int 10).
Definition lit_0_9 : float := SpecFloat.SFdiv 53 1024 (of_int 9) (of_int 10).
End Binary64.
(* ------------------------------------------------------------------ *)
(** ** Vocabulary of the properties *)

(** The value the next [random.random()] returns in [w], and the world it
    leaves. *)
Definition next_draw (w : World) : Q :=
  Z.of_N (entropy w (drawn w) mod 2 ^ 53) # 2 ^ 53.

Definition advance (w : World) : World :=
  mkWorld (entropy w) (S (drawn w)) (clock w) (read w) (trace w).

(** The world after effect [e] was recorded. *)
Definition logged (e : Effect) (w : World) : World :=
  mkWorld (entropy w) (drawn w) (clock w) (read w) (trace w ++ [e]).

Module ConditionProps.
Import EnvironmentalConditions.

Definition in_clamp_range (c : t) : Prop :=
  (0 <= temperature c <= 50) /\
  (0 <= humidity c <= 100) /\
  (0 <= wind_speed c <= 100) /\
  (0 <= water_level c <= 200) /\
  (0 <= smoke_level c <= 500) /\
  (0 <= seismic_activity c <= 10).

(** [n] successive calls of [update] on the same record. *)
Fixpoint updates (n : nat) (c : t) : M t :=
  match n with
  | O => ret c
  | S k => c' <- update c ;; updates k c'
  end.
End ConditionProps.

Module SeverityProps.
(** The ordinal order none < low < medium < high < critical. *)
Definition severity_le (a b : SeverityLevel.t) : Prop :=
  (SeverityLevel.value a <= SeverityLevel.value b)%Z.

(** The bucket of a severity ratio, in the words of the design document:
    below 0.25 low, below 0.5 medium, below 0.75 high, else critical. *)
Definition bucket_of_ratio (ratio : Q) : SeverityLevel.t :=
  if Qltb ratio (1 # 4) then SeverityLevel.LOW
  else if Qltb ratio (1 # 2) then SeverityLevel.MEDIUM
  else if Qltb ratio (3 # 4) then SeverityLevel.HIGH
  else SeverityLevel.CRITICAL.
End SeverityProps.

Module DetectorProps.
(** A detection rule as the design document lists it: the event type, the
    field it reads, the trigger threshold and the maximum of the scale. *)
Record Rule := mkRule {
  rule_type : DisasterType.t;
  reading : EnvironmentalConditions.t -> Q;
  rule_threshold : Q;
  rule_max : Q
}.

(** The three rules, in the order flood, fire, earthquake. *)
Definition rules : list Rule :=
  [ mkRule DisasterType.FLOOD EnvironmentalConditions.water_level 150 200;
    mkRule DisasterType.FIRE EnvironmentalConditions.smoke_level 300 500;
    mkRule DisasterType.EARTHQUAKE EnvironmentalConditions.seismic_activity
           5 10 ].

(** A rule is satisfied when the reading is strictly above its threshold. *)
Definition satisfied (c : EnvironmentalConditions.t) (r : Rule) : bool :=
  Qltb (rule_threshold r) (reading r c).

(** What an event says, leaving its clock reading aside. *)
Definition content (e : DisasterEvent.t)
  : DisasterType.t * SeverityLevel.t * Location.t :=
  (DisasterEvent.disaster_type e, DisasterEvent.severity e,
   DisasterEvent.location e).

(** The events the design document expects of one location: one per
    satisfied rule, in rule order. *)
Definition expected_at (item : Location.t * EnvironmentalConditions.t)
  : list (DisasterType.t * SeverityLevel.t * Location.t) :=
  map (fun r =>
         (rule_type r,
          SeverityProps.bucket_of_ratio
            ((reading r (snd item) - rule_threshold r)
             / (rule_max r - rule_threshold r)),
          fst item))
      (filter (satisfied (snd item)) rules).

(** And of a whole snapshot: locations in registry order. *)
Definition expected (snapshot : list (Location.t * EnvironmentalConditions.t))
  : list (DisasterType.t * SeverityLevel.t * Location.t) :=
  flat_map expected_at snapshot.
(** The world after a computation that only reads the clock: the generator
    and the trace are as before. *)
Definition clock_only (w w' : World) : Prop :=
  entropy w' = entropy w /\ drawn w' = drawn w /\ trace w' = trace w.
End DetectorProps.

Module StoreProps.
(** The operations a client can run on an environment: the two that write
    the Event Store, and the update of the conditions. *)
Inductive Op := Update | Detect | Inject.

(** One operation on the environment; an operation that raises leaves the
    object as it was (both methods write the lists after their last
    statement that can raise). *)
Definition step (op : Op) (self : DisasterEnvironment.t) (w : World)
  : DisasterEnvironment.t * World :=
  match op with
  | Update =>
      match DisasterEnvironment.update_conditions self w with
      | (Ok self', w') => (self', w')
      | (Raise _, w') => (self, w')
      end
  | Detect =>
      match DisasterEnvironment.detect_disasters self w with
      | (Ok (_, self'), w') => (self', w')
      | (Raise _, w') => (self, w')
      end
  | Inject =>
      match DisasterEnvironment.simulate_random_disaster self w with
      | (Ok (_, self'), w') => (self', w')
      | (Raise _, w') => (self, w')
      end
  end.

Fixpoint steps (ops : list Op) (self : DisasterEnvironment.t) (w : World)
  : DisasterEnvironment.t * World :=
  match ops with
  | [] => (self, w)
  | op :: rest => let (self', w') := step op self w in steps rest self' w'
  end.

(** [l'] is [l] with elements added at the end: every element of [l] is
    still there, at its position. *)
Definition extends {A} (l l' : list A) : Prop :=
  exists added, l' = l ++ added.
End StoreProps.

Module TickProps.
Definition is_call (name : string) (e : Effect) : bool :=
  match e with
  | Called method => String.eqb method name
  | Sent _ _ => false
  end.

(** How many times the method [name] was entered, according to a trace. *)
Definition calls (name : string) (tr : list Effect) : nat :=
  List.length (filter (is_call name) tr).

(** The active-event count the gate of a tick reads. *)
Definition active_count (agent : SensorAgent.t) : nat :=
  List.length (DisasterEnvironment.active_disasters
                 (SensorAgent.environment agent)).
End TickProps.

Module Samples.
(** A formatter and a world to evaluate the model on: the generator yields
    0, 1, 2, ... and the clock 1000, 1001, ... *)
Definition runtime : PyRuntime := {| float_repr := fun _ => "0.0"%string |}.

Definition world : World :=
  mkWorld (fun n => N.of_nat n) 0 (fun n => 1000 + Z.of_nat n)%Z 0 [].

Definition downtown : Location.t := Location.mk 10 20 "Downtown".

(** One location with a smoke level of 400 and nothing else near a
    threshold. *)
Definition environment : DisasterEnvironment.t :=
  DisasterEnvironment.mk
    [downtown]
    [(downtown, EnvironmentalConditions.mk downtown 20 50 10 50 400 1)]
    [] [].

Definition agent (simulate_disasters : bool) : SensorAgent.t :=
  SensorAgent.mk "sensor" 1 5 None simulate_disasters environment [].
End Samples.

(* ------------------------------------------------------------------ *)
(** ** Vocabulary of the further properties *)

Module SimulatorProps.
Import EnvironmentalConditions.

(** The ranges [__init__] draws the six fields from. *)
Definition in_initial_range (c : t) : Prop :=
  (15 <= temperature c <= 35) /\
  (30 <= humidity c <= 90) /\
  (0 <= wind_speed c <= 50) /\
  (0 <= water_level c <= 100) /\
  (0 <= smoke_level c <= 100) /\
  (0 <= seismic_activity c <= 10).

(** [b] is within [d] of [a]. *)
Definition within (d a b : Q) : Prop := a - d <= b /\ b <= a + d.

(** No field of [c'] is further from the field of [c] than the amplitude
    of its perturbation. *)
Definition one_step (c c' : t) : Prop :=
  location c' = location c /\
  within 2 (temperature c) (temperature c') /\
  within 5 (humidity c) (humidity c') /\
  within 5 (wind_speed c) (wind_speed c') /\
  within 10 (water_level c) (water_level c') /\
  within 10 (smoke_level c) (smoke_level c') /\
  within 1 (seismic_activity c) (seismic_activity c').

(** The record [update] leaves of [c] when the generator is as in [w]. *)
Definition perturbed (c : t) (w : World) : t :=
  let w1 := advance w in
  let w2 := advance w1 in
  let w3 := advance w2 in
  let w4 := advance w3 in
  let w5 := advance w4 in
  mk (location c)
     (py_max 0 (py_min 50 (temperature c + (-2 + (2 - -2) * next_draw w))))
     (py_max 0 (py_min 100 (humidity c + (-5 + (5 - -5) * next_draw w1))))
     (py_max 0 (py_min 100 (wind_speed c + (-5 + (5 - -5) * next_draw w2))))
     (py_max 0 (py_min 200
                  (water_level c + (-10 + (10 - -10) * next_draw w3))))
     (py_max 0 (py_min 500
                  (smoke_level c + (-10 + (10 - -10) * next_draw w4))))
     (py_max 0 (py_min 10
                  (seismic_activity c + (-1 + (1 - -1) * next_draw w5)))).

(** Water and smoke levels at most [bound]. *)
Definition levels_below (bound : Q) (c : t) : Prop :=
  water_level c <= bound /\ smoke_level c <= bound.
End SimulatorProps.

Module ClockProps.
(** [w'] is [w] after [n] readings of the clock and nothing else. *)
Definition clock_read (n : nat) (w w' : World) : Prop :=
  read w' = (read w + n)%nat /\ clock w' = clock w /\
  entropy w' = entropy w /\ drawn w' = drawn w /\ trace w' = trace w.

(** The events [evs] were created one after the other from world [w] on:
    all are flagged active and carry the successive clock readings. *)
Definition stamped (w : World) (evs : list DisasterEvent.t) : Prop :=
  Forall (fun e => DisasterEvent.active e = true) evs /\
  map DisasterEvent.timestamp evs
  = map (clock w) (seq (read w) (List.length evs)).
End ClockProps.

Module RegistryProps.
(** Every location has its conditions record, in registry order; each
    record names its location and is inside the clamp ranges. *)
Definition well_formed (self : DisasterEnvironment.t) : Prop :=
  map fst (DisasterEnvironment.conditions self)
  = DisasterEnvironment.locations self /\
  Forall (fun kv =>
            EnvironmentalConditions.location (snd kv) = fst kv /\
            ConditionProps.in_clamp_range (snd kv))
         (DisasterEnvironment.conditions self).

(** An event of type [ty] at a location whose reading [v] is above the
    threshold [thr] of the scale [thr .. mx]. *)
Definition raised_by (e : DisasterEvent.t) (ty : DisasterType.t)
    (v thr mx : Q) : Prop :=
  DisasterEvent.disaster_type e = ty /\ thr < v /\
  DisasterEvent.severity e
  = SeverityProps.bucket_of_ratio ((v - thr) / (mx - thr)).

(** What justifies a detected event: a conditions record of its location
    with the reading of the event's rule above its threshold. *)
Definition justified
    (snapshot : list (Location.t * EnvironmentalConditions.t))
    (e : DisasterEvent.t) : Prop :=
  exists c,
    In (DisasterEvent.location e, c) snapshot /\
    (raised_by e DisasterType.FLOOD
               (EnvironmentalConditions.water_level c) 150 200 \/
     raised_by e DisasterType.FIRE
               (EnvironmentalConditions.smoke_level c) 300 500 \/
     raised_by e DisasterType.EARTHQUAKE
               (EnvironmentalConditions.seismic_activity c) 5 10).
End RegistryProps.

Module HistoryProps.
Import StoreProps.

Definition is_update (op : Op) : bool :=
  match op with
  | Update => true
  | _ => false
  end.

(** How many of the operations are condition updates. *)
Definition updates_in (ops : list Op) : nat :=
  List.length (filter is_update ops).

(** Every record of the environment has water and smoke levels at most
    [bound]. *)
Definition calm (bound : Q) (self : DisasterEnvironment.t) : Prop :=
  Forall (fun kv => SimulatorProps.levels_below bound (snd kv))
         (DisasterEnvironment.conditions self).

(** The highest level a record can have reached after [n] updates. *)
Definition level_after (n : nat) : Q := 100 + 10 * inject_Z (Z.of_nat n).
End HistoryProps.

Module InjectionProps.
(** The world synthetic injection leaves when it returns: three words
    drawn, one clock reading taken, the call recorded. *)
Definition after_injection (w w' : World) : Prop :=
  drawn w' = (drawn w + 3)%nat /\ entropy w' = entropy w /\
  read w' = S (read w) /\ clock w' = clock w /\
  trace w' = trace w ++ [Called "simulate_random_disaster"].
End InjectionProps.

Module LogProps.
(** The entry [_log_disaster_event] writes for an event. *)
Definition log_entry (e : DisasterEvent.t) : SensorAgent.LogEntry :=
  SensorAgent.mkEntry
    (DisasterEvent.timestamp e)
    (DisasterType.value (DisasterEvent.disaster_type e))
    (SeverityLevel.name (DisasterEvent.severity e))
    (Location.str (DisasterEvent.location e))
    (Location.x (DisasterEvent.location e),
     Location.y (DisasterEvent.location e)).

(** The report [_report_disaster] builds for an event. *)
Definition report_of (sensor : string) (e : DisasterEvent.t) : Report :=
  mkReport "disaster_detected"
    (DisasterType.value (DisasterEvent.disaster_type e))
    (SeverityLevel.name (DisasterEvent.severity e))
    (Location.str (DisasterEvent.location e))
    (Location.x (DisasterEvent.location e),
     Location.y (DisasterEvent.location e))
    (DisasterEvent.timestamp e)
    sensor.

(** The configured recipient, if there is one: a non-empty string. *)
Definition recipient (agent : SensorAgent.t) : option string :=
  match SensorAgent.coordinator_jid agent with
  | Some (String c s) => Some (String c s)
  | _ => None
  end.

(** One report per event, in order, to the recipient if there is one. *)
Definition reports_for (agent : SensorAgent.t)
    (evs : list DisasterEvent.t) : list Effect :=
  match recipient agent with
  | Some to => map (fun e => Sent to (report_of (SensorAgent.jid agent) e)) evs
  | None => []
  end.

Definition is_sent (e : Effect) : bool :=
  match e with
  | Sent _ _ => true
  | Called _ => false
  end.

(** The reports of a trace, in order. *)
Definition sent (tr : list Effect) : list Effect := filter is_sent tr.

Definition same_configuration (agent agent' : SensorAgent.t) : Prop :=
  SensorAgent.jid agent' = SensorAgent.jid agent /\
  SensorAgent.num_locations agent' = SensorAgent.num_locations agent /\
  SensorAgent.monitoring_interval agent'
  = SensorAgent.monitoring_interval agent /\
  SensorAgent.coordinator_jid agent' = SensorAgent.coordinator_jid agent /\
  SensorAgent.simulate_disasters agent'
  = SensorAgent.simulate_disasters agent.

(** [agent'] is [agent] after the events [added] were stored and logged:
    both lists of the store and the event log grew by them, in order, and
    the configuration and the locations are as before. *)
Definition grown (agent agent' : SensorAgent.t)
    (added : list DisasterEvent.t) : Prop :=
  same_configuration agent agent' /\
  DisasterEnvironment.locations (SensorAgent.environment agent')
  = DisasterEnvironment.locations (SensorAgent.environment agent) /\
  DisasterEnvironment.active_disasters (SensorAgent.environment agent')
  = DisasterEnvironment.active_disasters (SensorAgent.environment agent)
    ++ added /\
  DisasterEnvironment.event_history (SensorAgent.environment agent')
  = DisasterEnvironment.event_history (SensorAgent.environment agent)
    ++ added /\
  SensorAgent.detected_events agent'
  = SensorAgent.detected_events agent ++ map log_entry added.

(** The gate of the stimulus, for an agent and a world at that point. *)
Definition gate_open (agent : SensorAgent.t) (w : World) : Prop :=
  SensorAgent.simulate_disasters agent = true /\
  (TickProps.active_count agent < 3)%nat /\ next_draw w < 1 # 10.

Definition gate_closed (agent : SensorAgent.t) (w : World) : Prop :=
  SensorAgent.simulate_disasters agent = false \/
  (3 <= TickProps.active_count agent)%nat \/ 1 # 10 <= next_draw w.
End LogProps.

Module EdgeSamples.
(** An agent with stimulus mode on whose environment has no location, as
    construction with a count of zero leaves it. *)
Definition bare_agent : SensorAgent.t :=
  SensorAgent.mk "sensor" 0 5 None true (DisasterEnvironment.mk [] [] [] []) [].
End EdgeSamples.

Module RunProps.
(** [n] ticks in a row; a tick that raises ends the series. *)
Fixpoint ticks (n : nat) (agent : SensorAgent.t) : M SensorAgent.t :=
  match n with
  | O => ret agent
  | S k => agent <- EnvironmentMonitoringBehaviour.run agent ;; ticks k agent
  end.

(** Coordinates inside the square the locations are drawn from. *)
Definition in_square (l : Location.t) : Prop :=
  (0 <= Location.x l <= 100) /\ (0 <= Location.y l <= 100).
End RunProps.

Module SilentProps.
(** The world after the clock was read once, as at the start of a tick. *)
Definition after_now (w : World) : World :=
  mkWorld (entropy w) (drawn w) (clock w) (S (read w)) (trace w).

(** The agent after [_log_disaster_event] ran on each of [evs] in turn. *)
Definition logged_all (agent : SensorAgent.t) (evs : list DisasterEvent.t)
  : SensorAgent.t :=
  fold_left EnvironmentMonitoringBehaviour._log_disaster_event evs agent.

(** The new entries of a trace are calls of environment methods only. *)
Definition only_calls (tr tr' : list Effect) : Prop :=
  exists methods, tr' = tr ++ map Called methods.
End SilentProps.

(* ------------------------------------------------------------------ *)
(** ** Running the monad *)

Lemma bind_ok {A B} (m : M A) (k : A -> M B) (w w' : World) (a : A) :
  m w = (Ok a, w') -> bind m k w = k a w'.
Proof. intros E. unfold bind. now rewrite E. Qed.

Lemma bind_raise {A B} (m : M A) (k : A -> M B) (w w' : World) (e : PyExn) :
  m w = (Raise e, w') -> bind m k w = (Raise e, w').
Proof. intros E. unfold bind. now rewrite E. Qed.

Lemma random_eq (w : World) : random w = (Ok (next_draw w), advance w).
Proof. reflexivity. Qed.

Lemma uniform_eq (a b : Q) (w : World) :
  uniform a b w = (Ok (a + (b - a) * next_draw w), advance w).
Proof. reflexivity. Qed.

Lemma emit_eq (e : Effect) (w : World) : emit e w = (Ok tt, logged e w).
Proof. reflexivity. Qed.

(** A draw is a multiple of 2^-53, and no such multiple lies between one
    tenth and the double the literal [0.1] stands for. *)
Lemma draw_below_tenth (w : World) :
  next_draw w < float_0_1 <-> next_draw w < 1 # 10.
Proof.
  unfold next_draw, float_0_1, Qlt. cbn [Qnum Qden].
  pose proof (N.mod_lt (entropy w (drawn w)) (2 ^ 53)) as B.
  set (k := (entropy w (drawn w) mod 2 ^ 53)%N) in *.
  change (Z.pos (2 ^ 53)) with 9007199254740992%Z.
  lia.
Qed.

Lemma trace_advance (w : World) : trace (advance w) = trace w.
Proof. reflexivity. Qed.

(* ------------------------------------------------------------------ *)
(** ** Comparisons and clamping *)

Lemma Qltb_lt (a b : Q) : Qltb a b = true <-> a < b.
Proof.
  unfold Qltb. rewrite negb_true_iff, <- not_true_iff_false, Qle_bool_iff.
  split; [apply Qnot_le_lt | apply Qlt_not_le].
Qed.

Lemma Qltb_ge (a b : Q) : Qltb a b = false <-> b <= a.
Proof.
  unfold Qltb. rewrite negb_false_iff. apply Qle_bool_iff.
Qed.

Lemma Qltb_spec (a b : Q) : reflect (a < b) (Qltb a b).
Proof.
  destruct (Qltb a b) eqn:E; constructor.
  - now apply Qltb_lt.
  - apply Qltb_ge in E. now apply Qle_not_lt.
Qed.

Lemma py_min_le (hi v : Q) : py_min hi v <= hi.
Proof.
  unfold py_min. destruct (Qltb_spec v hi); lra.
Qed.

Lemma py_max_ge (lo v : Q) : lo <= py_max lo v.
Proof.
  unfold py_max. destruct (Qltb_spec lo v); lra.
Qed.

Lemma py_max_le (lo v hi : Q) : lo <= hi -> v <= hi -> py_max lo v <= hi.
Proof.
  intros Hlo Hv. unfold py_max. destruct (Qltb_spec lo v); lra.
Qed.

Lemma clamp_bounds (lo hi v : Q) :
  lo <= hi -> lo <= py_max lo (py_min hi v) <= hi.
Proof.
  intros H. split.
  - apply py_max_ge.
  - apply py_max_le; [exact H | apply py_min_le].
Qed.

(** A value already inside the range is left alone by the clamp. *)
Lemma clamp_inside (lo hi v : Q) :
  lo < v -> v < hi -> py_max lo (py_min hi v) = v.
Proof.
  intros H1 H2. unfold py_min.
  destruct (Qltb_spec v hi); [| contradiction].
  unfold py_max. destruct (Qltb_spec lo v); [reflexivity | contradiction].
Qed.

(* ------------------------------------------------------------------ *)
(** ** Condition simulator *)

Module ConditionFacts.
Import EnvironmentalConditions ConditionProps.

Lemma update_in_range (c : t) (w : World) :
  exists c' w', update c w = (Ok c', w') /\ in_clamp_range c'.
Proof.
  eexists. eexists. split.
  - unfold update, uniform, random, next_word, bind, ret. reflexivity.
  - unfold in_clamp_range. cbn [temperature humidity wind_speed water_level
                                smoke_level seismic_activity].
    repeat split; apply clamp_bounds; lra.
Qed.

Lemma updates_in_range (n : nat) :
  forall c w, in_clamp_range c ->
  exists c' w', updates n c w = (Ok c', w') /\ in_clamp_range c'.
Proof.
  induction n as [| k IH]; intros c w Hc.
  - exists c, w. split; [reflexivity | exact Hc].
  - destruct (update_in_range c w) as (c1 & w1 & E1 & H1).
    destruct (IH c1 w1 H1) as (c2 & w2 & E2 & H2).
    exists c2, w2. split; [| exact H2].
    cbn [updates]. unfold bind at 1. rewrite E1. exact E2.
Qed.
End ConditionFacts.

(** C3: whatever the record and whatever the random draws, every call of
    [update] in a sequence of calls returns, and leaves each field inside
    its clamp range: temperature in [0,50], humidity and wind speed in
    [0,100], water level in [0,200], smoke level in [0,500] and seismic
    activity in [0,10]. *)
Theorem update_keeps_clamp_ranges :
  forall (c : EnvironmentalConditions.t) (w : World) (n : nat),
  exists c' w',
    ConditionProps.updates (S n) c w = (Ok c', w') /\
    ConditionProps.in_clamp_range c'.
Proof.
  intros c w n.
  destruct (ConditionFacts.update_in_range c w) as (c1 & w1 & E1 & H1).
  destruct (ConditionFacts.updates_in_range n c1 w1 H1) as (c2 & w2 & E2 & H2).
  exists c2, w2. split; [| exact H2].
  cbn [ConditionProps.updates]. unfold bind at 1. rewrite E1. exact E2.
Qed.

(* ------------------------------------------------------------------ *)
(** ** Severity *)

Module SeverityFacts.
Import DisasterEnvironment SeverityProps.

Lemma py_div_ok (a b : Q) : ~ b == 0 -> py_div a b = Ok (a / b).
Proof.
  intros Hb. unfold py_div.
  destruct (Qeq_bool b 0) eqn:E; [| reflexivity].
  apply Qeq_bool_iff in E. contradiction.
Qed.

Lemma py_div_zero (a b : Q) : b == 0 -> py_div a b = Raise ZeroDivisionError.
Proof.
  intros Hb. unfold py_div. apply Qeq_bool_iff in Hb. now rewrite Hb.
Qed.

Lemma severity_below (v t m : Q) :
  v < t -> _calculate_severity v t m = Ok SeverityLevel.NONE.
Proof.
  intros H. unfold _calculate_severity.
  apply Qltb_lt in H. now rewrite H.
Qed.

Lemma severity_by_ratio (v t m : Q) :
  t <= v -> ~ m == t ->
  _calculate_severity v t m = Ok (bucket_of_ratio ((v - t) / (m - t))).
Proof.
  intros Hv Hm. unfold _calculate_severity.
  apply Qltb_ge in Hv. rewrite Hv.
  rewrite py_div_ok by (intro E; apply Hm; lra).
  unfold bucket_of_ratio.
  repeat match goal with |- context [Qltb ?a ?b] => destruct (Qltb a b) end;
    reflexivity.
Qed.

Lemma severity_degenerate (v t m : Q) :
  t <= v -> m == t -> _calculate_severity v t m = Raise ZeroDivisionError.
Proof.
  intros Hv Hm. unfold _calculate_severity.
  apply Qltb_ge in Hv. rewrite Hv.
  now rewrite py_div_zero by lra.
Qed.

Lemma bucket_cases (r : Q) :
  (r < 1 # 4 -> bucket_of_ratio r = SeverityLevel.LOW) /\
  (1 # 4 <= r -> r < 1 # 2 -> bucket_of_ratio r = SeverityLevel.MEDIUM) /\
  (1 # 2 <= r -> r < 3 # 4 -> bucket_of_ratio r = SeverityLevel.HIGH) /\
  (3 # 4 <= r -> bucket_of_ratio r = SeverityLevel.CRITICAL).
Proof.
  unfold bucket_of_ratio.
  destruct (Qltb_spec r (1 # 4)), (Qltb_spec r (1 # 2)),
           (Qltb_spec r (3 # 4));
    repeat split; intros; try reflexivity; exfalso; lra.
Qed.

Lemma bucket_monotone (r1 r2 : Q) :
  r1 <= r2 -> severity_le (bucket_of_ratio r1) (bucket_of_ratio r2).
Proof.
  intros H. unfold bucket_of_ratio, severity_le.
  destruct (Qltb_spec r1 (1 # 4)), (Qltb_spec r1 (1 # 2)),
           (Qltb_spec r1 (3 # 4)), (Qltb_spec r2 (1 # 4)),
           (Qltb_spec r2 (1 # 2)), (Qltb_spec r2 (3 # 4));
    cbn; try lia; exfalso; lra.
Qed.

Lemma ratio_monotone (v1 v2 t m : Q) :
  t < m -> v1 <= v2 -> (v1 - t) / (m - t) <= (v2 - t) / (m - t).
Proof.
  intros Hm Hv. unfold Qdiv.
  apply Qmult_le_compat_r; [lra |].
  apply Qlt_le_weak, Qinv_lt_0_compat. lra.
Qed.

Lemma ratio_at_least_one (v t m : Q) :
  t < m -> m <= v -> 1 <= (v - t) / (m - t).
Proof.
  intros Hm Hv. apply Qle_shift_div_l; lra.
Qed.
End SeverityFacts.

(* ------------------------------------------------------------------ *)
(** ** Severity in binary64 *)

Module Binary64Facts.
Import SpecFloat Binary64.

Lemma lit_0_25_eq : lit_0_25 = S754_finite false 4503599627370496 (-54).
Proof. reflexivity. Qed.

Lemma lit_0_5_eq : lit_0_5 = S754_finite false 4503599627370496 (-53).
Proof. reflexivity. Qed.

Lemma lit_0_75_eq : lit_0_75 = S754_finite false 6755399441055744 (-53).
Proof. reflexivity. Qed.

(** A float that compares equal to a finite one is that float. *)
Lemma eqb_finite (r : float) (s : bool) (m : positive) (e : Z) :
  eqb r (S754_finite s m e) = true -> r = S754_finite s m e.
Proof.
  unfold eqb, SFeqb, SFcompare.
  destruct r as [s' | s' | | s' m' e'].
  - destruct s; discriminate.
  - destruct s'; discriminate.
  - discriminate.
  - change (Pos.compare_cont Eq m' m) with (Pos.compare m' m).
    destruct s', s; try discriminate;
      destruct (Z.compare_spec e' e) as [-> | |]; try discriminate;
      destruct (Pos.compare_spec m' m) as [-> | |]; try discriminate;
      reflexivity.
Qed.

(** Not below [b] when at or above [b]. *)
Lemma leb_not_ltb (r : float) (s : bool) (m : positive) (e : Z) :
  leb (S754_finite s m e) r = true -> ltb r (S754_finite s m e) = false.
Proof.
  unfold leb, ltb, SFleb, SFltb, SFcompare.
  destruct r as [s' | s' | | s' m' e'].
  - destruct s; [reflexivity | discriminate].
  - destruct s'; [discriminate | reflexivity].
  - discriminate.
  - try change (Pos.compare_cont Eq m m') with (Pos.compare m m').
    try change (Pos.compare_cont Eq m' m) with (Pos.compare m' m).
    destruct s, s'; try discriminate; try reflexivity;
      destruct (Z.compare_spec e e'); destruct (Z.compare_spec e' e);
      destruct (Pos.compare_spec m m'); destruct (Pos.compare_spec m' m);
      cbn [CompOpp]; try discriminate; intros _; try reflexivity; lia.
Qed.

(** Not below a smaller positive float either. *)
Lemma leb_not_ltb_smaller (r : float) (m1 m2 : positive) (e1 e2 : Z) :
  (e1 < e2)%Z \/ (e1 = e2 /\ (m1 < m2)%positive) ->
  leb (S754_finite false m2 e2) r = true ->
  ltb r (S754_finite false m1 e1) = false.
Proof.
  intros Hlt. unfold leb, ltb, SFleb, SFltb, SFcompare.
  destruct r as [s' | s' | | s' m' e'].
  - discriminate.
  - destruct s'; [discriminate | reflexivity].
  - discriminate.
  - try change (Pos.compare_cont Eq m2 m') with (Pos.compare m2 m').
    try change (Pos.compare_cont Eq m' m1) with (Pos.compare m' m1).
    destruct s'; [discriminate |].
    destruct (Z.compare_spec e2 e') as [Hc | Hc | Hc];
      destruct (Pos.compare_spec m2 m') as [Hm | Hm | Hm];
      try discriminate; intros _;
      destruct (Z.compare_spec e' e1); destruct (Pos.compare_spec m' m1);
      try reflexivity; lia.
Qed.

Lemma binary64_severity_below (v t m : float) :
  ltb v t = true -> _calculate_severity v t m = Ok SeverityLevel.NONE.
Proof. intros H. unfold _calculate_severity. now rewrite H. Qed.

Lemma binary64_severity_by_ratio (v t m : float) :
  ltb v t = false -> eqb (sub m t) zero = false ->
  _calculate_severity v t m
  = Ok (let ratio := SFdiv 53 1024 (sub v t) (sub m t) in
        if ltb ratio lit_0_25 then SeverityLevel.LOW
        else if ltb ratio lit_0_5 then SeverityLevel.MEDIUM
        else if ltb ratio lit_0_75 then SeverityLevel.HIGH
        else SeverityLevel.CRITICAL).
Proof.
  intros Hv Hm. unfold _calculate_severity, truediv. rewrite Hv, Hm.
  cbv zeta.
  repeat match goal with |- context [ltb ?a ?b] => destruct (ltb a b) end;
    reflexivity.
Qed.

Lemma binary64_severity_zero_divisor (v t m : float) :
  ltb v t = false -> eqb (sub m t) zero = true ->
  _calculate_severity v t m = Raise ZeroDivisionError.
Proof.
  intros Hv Hm. unfold _calculate_severity, truediv. now rewrite Hv, Hm.
Qed.
End Binary64Facts.

(** C2 as stated fails: the code computes the ratio in binary64. For the
    value 0.5 on the scale from 0.1 to 0.9 (the doubles) the two
    differences and their quotient round to exactly 0.5, so the severity
    is high, although the real ratio of these three numbers lies in
    [0.25, 0.5), for which the claim says medium. *)
Lemma severity_bucket_of_the_rounded_ratio :
  let value := Binary64.lit_0_5 in
  let threshold := Binary64.lit_0_1 in
  let max_value := Binary64.lit_0_9 in
  let ratio :=
    (Binary64.exact value - Binary64.exact threshold)
    / (Binary64.exact max_value - Binary64.exact threshold) in
  Binary64._calculate_severity value threshold max_value
  = Ok SeverityLevel.HIGH /\
  Binary64.exact threshold <= Binary64.exact value /\
  1 # 4 <= ratio /\ ratio < 1 # 2 /\
  SeverityProps.bucket_of_ratio ratio = SeverityLevel.MEDIUM.
Proof.
  cbv zeta. split; [vm_compute; reflexivity |].
  split; [vm_compute; discriminate |].
  split; [vm_compute; discriminate |].
  split; vm_compute; reflexivity.
Qed.

(** C2, amended: on binary64 numbers, below the threshold the severity is
    none; otherwise, when the difference max_value - threshold is not
    zero, with ratio the binary64 quotient of the binary64 differences
    value - threshold and max_value - threshold, it is low for
    ratio < 0.25, medium for 0.25 <= ratio < 0.5, high for
    0.5 <= ratio < 0.75 and critical for ratio >= 0.75; so a computed
    ratio of exactly 0.25, 0.5 or 0.75 gives medium, high or critical. *)
Theorem severity_buckets_binary64 (value threshold max_value : Binary64.float) :
  (Binary64.ltb value threshold = true ->
   Binary64._calculate_severity value threshold max_value
   = Ok SeverityLevel.NONE) /\
  (Binary64.ltb value threshold = false ->
   Binary64.eqb (Binary64.sub max_value threshold) Binary64.zero = false ->
   let ratio :=
     SpecFloat.SFdiv 53 1024 (Binary64.sub value threshold)
                     (Binary64.sub max_value threshold) in
   let severity :=
     Binary64._calculate_severity value threshold max_value in
   (Binary64.ltb ratio Binary64.lit_0_25 = true ->
    severity = Ok SeverityLevel.LOW) /\
   (Binary64.leb Binary64.lit_0_25 ratio = true ->
    Binary64.ltb ratio Binary64.lit_0_5 = true ->
    severity = Ok SeverityLevel.MEDIUM) /\
   (Binary64.leb Binary64.lit_0_5 ratio = true ->
    Binary64.ltb ratio Binary64.lit_0_75 = true ->
    severity = Ok SeverityLevel.HIGH) /\
   (Binary64.leb Binary64.lit_0_75 ratio = true ->
    severity = Ok SeverityLevel.CRITICAL) /\
   (Binary64.eqb ratio Binary64.lit_0_25 = true ->
    severity = Ok SeverityLevel.MEDIUM) /\
   (Binary64.eqb ratio Binary64.lit_0_5 = true ->
    severity = Ok SeverityLevel.HIGH) /\
   (Binary64.eqb ratio Binary64.lit_0_75 = true ->
    severity = Ok SeverityLevel.CRITICAL)).
Proof.
  split; [apply Binary64Facts.binary64_severity_below |].
  intros Hv Hm ratio severity. subst severity.
  rewrite (Binary64Facts.binary64_severity_by_ratio _ _ _ Hv Hm). fold ratio.
  cbv zeta. clearbody ratio.
  assert (Q_H : Binary64.leb Binary64.lit_0_5 ratio = true ->
                Binary64.ltb ratio Binary64.lit_0_25 = false).
  { rewrite Binary64Facts.lit_0_5_eq, Binary64Facts.lit_0_25_eq.
    apply Binary64Facts.leb_not_ltb_smaller. left. lia. }
  assert (Q_C : Binary64.leb Binary64.lit_0_75 ratio = true ->
                Binary64.ltb ratio Binary64.lit_0_25 = false).
  { rewrite Binary64Facts.lit_0_75_eq, Binary64Facts.lit_0_25_eq.
    apply Binary64Facts.leb_not_ltb_smaller. left. lia. }
  assert (H_C : Binary64.leb Binary64.lit_0_75 ratio = true ->
                Binary64.ltb ratio Binary64.lit_0_5 = false).
  { rewrite Binary64Facts.lit_0_75_eq, Binary64Facts.lit_0_5_eq.
    apply Binary64Facts.leb_not_ltb_smaller. right. split; lia. }
  assert (Q_Q : Binary64.leb Binary64.lit_0_25 ratio = true ->
                Binary64.ltb ratio Binary64.lit_0_25 = false)
    by (rewrite Binary64Facts.lit_0_25_eq; apply Binary64Facts.leb_not_ltb).
  assert (H_H : Binary64.leb Binary64.lit_0_5 ratio = true ->
                Binary64.ltb ratio Binary64.lit_0_5 = false)
    by (rewrite Binary64Facts.lit_0_5_eq; apply Binary64Facts.leb_not_ltb).
  assert (C_C : Binary64.leb Binary64.lit_0_75 ratio = true ->
                Binary64.ltb ratio Binary64.lit_0_75 = false)
    by (rewrite Binary64Facts.lit_0_75_eq; apply Binary64Facts.leb_not_ltb).
  split; [intros L; now rewrite L |].
  split; [intros G L; now rewrite (Q_Q G), L |].
  split; [intros G L; now rewrite (Q_H G), (H_H G), L |].
  split; [intros G; now rewrite (Q_C G), (H_C G), (C_C G) |].
  split; [| split]; intros E.
  - rewrite Binary64Facts.lit_0_25_eq in E.
    apply Binary64Facts.eqb_finite in E. now subst ratio.
  - rewrite Binary64Facts.lit_0_5_eq in E.
    apply Binary64Facts.eqb_finite in E. now subst ratio.
  - rewrite Binary64Facts.lit_0_75_eq in E.
    apply Binary64Facts.eqb_finite in E. now subst ratio.
Qed.

(** The fire reading 350 between 300 and 500: the computed ratio is
    exactly 0.25, and the severity is medium. *)
Lemma severity_buckets_binary64_witness :
  (Binary64.ltb (Binary64.of_int 350) (Binary64.of_int 300) = false /\
   Binary64.eqb (Binary64.sub (Binary64.of_int 500) (Binary64.of_int 300))
                Binary64.zero = false /\
   Binary64.eqb
     (SpecFloat.SFdiv 53 1024
        (Binary64.sub (Binary64.of_int 350) (Binary64.of_int 300))
        (Binary64.sub (Binary64.of_int 500) (Binary64.of_int 300)))
     Binary64.lit_0_25 = true) /\
  Binary64._calculate_severity (Binary64.of_int 350) (Binary64.of_int 300)
                               (Binary64.of_int 500)
  = Ok SeverityLevel.MEDIUM.
Proof.
  assert (H1 : Binary64.ltb (Binary64.of_int 350) (Binary64.of_int 300)
               = false) by reflexivity.
  assert (H2 : Binary64.eqb
                 (Binary64.sub (Binary64.of_int 500) (Binary64.of_int 300))
                 Binary64.zero = false) by reflexivity.
  assert (H3 : Binary64.eqb
                 (SpecFloat.SFdiv 53 1024
                    (Binary64.sub (Binary64.of_int 350) (Binary64.of_int 300))
                    (Binary64.sub (Binary64.of_int 500) (Binary64.of_int 300)))
                 Binary64.lit_0_25 = true) by reflexivity.
  split; [repeat split; assumption |].
  destruct (severity_buckets_binary64 (Binary64.of_int 350)
              (Binary64.of_int 300) (Binary64.of_int 500)) as [_ H].
  destruct (H H1 H2) as (_ & _ & _ & _ & E & _).
  exact (E H3).
Defined.

(** C4 as stated fails: with [max_value = threshold] and a value at the
    threshold the ratio is 0/0 and the division raises. *)
Lemma severity_raises_on_equal_bounds :
  DisasterEnvironment._calculate_severity 1 1 1 = Raise ZeroDivisionError /\
  ~ (forall value threshold max_value : Q,
       exists s,
         DisasterEnvironment._calculate_severity value threshold max_value
         = Ok s).
Proof.
  split; [reflexivity |].
  intros H. destruct (H 1 1 1) as [s Hs]. discriminate Hs.
Qed.

(** C4, amended: the severity computation returns a level exactly when the
    value is below the threshold or [max_value] differs from the threshold
    (otherwise the division raises [ZeroDivisionError]); a value below the
    threshold gives none, and a value at or above [max_value], with
    [max_value > threshold], gives critical. *)
Theorem severity_defined_unless_bounds_equal (value threshold max_value : Q) :
  ((value < threshold \/ ~ max_value == threshold) <->
   exists s,
     DisasterEnvironment._calculate_severity value threshold max_value
     = Ok s) /\
  (value < threshold ->
   DisasterEnvironment._calculate_severity value threshold max_value
   = Ok SeverityLevel.NONE) /\
  (threshold < max_value -> max_value <= value ->
   DisasterEnvironment._calculate_severity value threshold max_value
   = Ok SeverityLevel.CRITICAL).
Proof.
  split; [split |].
  - intros H.
    destruct (Qlt_le_dec value threshold) as [Hlt | Hge].
    + eexists. now apply SeverityFacts.severity_below.
    + destruct H as [Hlt | Hne]; [exfalso; lra |].
      eexists. now apply SeverityFacts.severity_by_ratio.
  - intros [s Hs].
    destruct (Qlt_le_dec value threshold) as [Hlt | Hge]; [now left |].
    right. intros Heq.
    rewrite (SeverityFacts.severity_degenerate _ _ _ Hge Heq) in Hs.
    discriminate Hs.
  - split; [apply SeverityFacts.severity_below |].
    intros Hm Hv.
    rewrite SeverityFacts.severity_by_ratio by lra.
    f_equal. apply SeverityFacts.bucket_cases.
    pose proof (SeverityFacts.ratio_at_least_one _ _ _ Hm Hv). lra.
Qed.

(** A flood reading of 200 between 150 and 200 has ratio 1 and is graded
    critical. *)
Lemma severity_defined_unless_bounds_equal_witness :
  (150 < 200 /\ 200 <= 200) /\
  DisasterEnvironment._calculate_severity 200 150 200
  = Ok SeverityLevel.CRITICAL.
Proof.
  assert (H1 : 150 < 200) by reflexivity.
  assert (H2 : 200 <= 200) by (vm_compute; discriminate).
  split; [split; assumption |].
  destruct (severity_defined_unless_bounds_equal 200 150 200) as (_ & _ & H).
  exact (H H1 H2).
Defined.

(** C5: for a fixed threshold and a larger [max_value], the severity of a
    smaller value is never above the severity of a larger one, in the order
    none < low < medium < high < critical (and both are defined). *)
Theorem severity_monotone (threshold max_value v1 v2 : Q) :
  threshold < max_value -> v1 <= v2 ->
  exists s1 s2,
    DisasterEnvironment._calculate_severity v1 threshold max_value = Ok s1 /\
    DisasterEnvironment._calculate_severity v2 threshold max_value = Ok s2 /\
    SeverityProps.severity_le s1 s2.
Proof.
  intros Hm Hv.
  assert (Hne : ~ max_value == threshold) by lra.
  destruct (Qlt_le_dec v1 threshold) as [H1 | H1].
  - rewrite (SeverityFacts.severity_below _ _ _ H1).
    destruct (Qlt_le_dec v2 threshold) as [H2 | H2].
    + rewrite (SeverityFacts.severity_below _ _ _ H2).
      do 2 eexists. repeat split. unfold SeverityProps.severity_le. lia.
    + rewrite (SeverityFacts.severity_by_ratio _ _ _ H2 Hne).
      do 2 eexists. repeat split. unfold SeverityProps.severity_le.
      cbn. destruct (SeverityProps.bucket_of_ratio _); cbn; lia.
  - assert (H2 : threshold <= v2) by lra.
    rewrite (SeverityFacts.severity_by_ratio _ _ _ H1 Hne).
    rewrite (SeverityFacts.severity_by_ratio _ _ _ H2 Hne).
    do 2 eexists. repeat split.
    apply SeverityFacts.bucket_monotone.
    now apply SeverityFacts.ratio_monotone.
Qed.

(** Smoke readings 310 and 460 between 300 and 500: low, then critical. *)
Lemma severity_monotone_witness :
  (300 < 500 /\ 310 <= 460) /\
  exists s1 s2,
    DisasterEnvironment._calculate_severity 310 300 500 = Ok s1 /\
    DisasterEnvironment._calculate_severity 460 300 500 = Ok s2 /\
    SeverityProps.severity_le s1 s2.
Proof.
  assert (H1 : 300 < 500) by reflexivity.
  assert (H2 : 310 <= 460) by (vm_compute; discriminate).
  split; [split; assumption |].
  exact (severity_monotone 300 500 310 460 H1 H2).
Defined.

(* ------------------------------------------------------------------ *)
(** ** Detector *)

Module DetectorFacts.
Import DisasterEnvironment DetectorProps.

Lemma clock_only_refl (w : World) : clock_only w w.
Proof. repeat split. Qed.

Lemma clock_only_trans (w1 w2 w3 : World) :
  clock_only w1 w2 -> clock_only w2 w3 -> clock_only w1 w3.
Proof.
  intros (A1 & B1 & C1) (A2 & B2 & C2).
  repeat split; congruence.
Qed.

(** One rule check of the loop body. *)
Lemma check_rule (ty : DisasterType.t) (v thr mx : Q) (loc : Location.t)
    (acc : list DisasterEvent.t) (w : World) :
  thr < mx ->
  exists evs w',
    (if Qltb thr v then
       severity <- lift (_calculate_severity v thr mx) ;;
       event <- DisasterEvent.init ty severity loc None ;;
       ret (acc ++ [event])
     else ret acc) w = (Ok (acc ++ evs), w') /\
    map content evs =
      (if Qltb thr v
       then [(ty, SeverityProps.bucket_of_ratio ((v - thr) / (mx - thr)), loc)]
       else []) /\
    clock_only w w'.
Proof.
  intros Hmx. destruct (Qltb_spec thr v) as [Hv | Hv].
  - rewrite SeverityFacts.severity_by_ratio by lra.
    eexists [_]. eexists. repeat split.
  - exists [], w. rewrite app_nil_r. repeat split.
Qed.

Lemma detect_at_spec (item : Location.t * EnvironmentalConditions.t)
    (acc : list DisasterEvent.t) (w : World) :
  exists evs w',
    detect_at item acc w = (Ok (acc ++ evs), w') /\
    map content evs = expected_at item /\
    clock_only w w'.
Proof.
  destruct item as [loc c]. unfold detect_at.
  destruct (check_rule DisasterType.FLOOD
              (EnvironmentalConditions.water_level c) 150 200 loc acc w)
    as (e1 & w1 & E1 & K1 & W1); [reflexivity |].
  destruct (check_rule DisasterType.FIRE
              (EnvironmentalConditions.smoke_level c) 300 500 loc
              (acc ++ e1) w1)
    as (e2 & w2 & E2 & K2 & W2); [reflexivity |].
  destruct (check_rule DisasterType.EARTHQUAKE
              (EnvironmentalConditions.seismic_activity c) 5 10 loc
              ((acc ++ e1) ++ e2) w2)
    as (e3 & w3 & E3 & K3 & W3); [reflexivity |].
  exists (e1 ++ e2 ++ e3), w3. split; [| split].
  - unfold bind at 1. rewrite E1.
    unfold bind at 1. rewrite E2.
    rewrite E3. now rewrite !app_assoc.
  - rewrite !map_app, K1, K2, K3.
    unfold expected_at, rules, satisfied. cbn.
    repeat match goal with |- context [Qltb ?a ?b] => destruct (Qltb a b) end;
      reflexivity.
  - eauto using clock_only_trans.
Qed.

Lemma detect_loop_spec
    (items : list (Location.t * EnvironmentalConditions.t)) :
  forall (acc : list DisasterEvent.t) (w : World),
  exists evs w',
    for_loop detect_at items acc w = (Ok (acc ++ evs), w') /\
    map content evs = expected items /\
    clock_only w w'.
Proof.
  induction items as [| item rest IH]; intros acc w.
  - exists [], w. cbn. rewrite app_nil_r. repeat split.
  - destruct (detect_at_spec item acc w) as (e1 & w1 & E1 & K1 & W1).
    destruct (IH (acc ++ e1) w1) as (e2 & w2 & E2 & K2 & W2).
    exists (e1 ++ e2), w2. split; [| split].
    + cbn [for_loop]. unfold bind. rewrite E1, E2. now rewrite app_assoc.
    + unfold expected in *. cbn [flat_map]. now rewrite map_app, K1, K2.
    + eauto using clock_only_trans.
Qed.

(** [detect_disasters] always returns; the lists grow by what it returns. *)
Lemma detect_disasters_spec (self : t) (w : World) :
  exists new w',
    detect_disasters self w
    = (Ok (new, mk (locations self) (conditions self)
                   (active_disasters self ++ new)
                   (event_history self ++ new)), w') /\
    map content new = expected (conditions self) /\
    entropy w' = entropy w /\ drawn w' = drawn w /\
    trace w' = trace w ++ [Called "detect_disasters"].
Proof.
  unfold detect_disasters, emit. unfold bind at 1. cbv beta iota.
  unfold bind.
  match goal with |- context [for_loop detect_at _ [] ?w0] =>
    destruct (detect_loop_spec (conditions self) [] w0)
      as (new & w' & E & K & W1 & W2 & W3)
  end.
  exists new, w'. rewrite E. cbn in *. repeat split; assumption.
Qed.
End DetectorFacts.

(** C1: on every snapshot [detect_disasters] returns, and what it returns
    is one event per satisfied rule per location -- flood when the water
    level is above 150, fire when the smoke level is above 300, earthquake
    when the seismic activity is above 5, all strictly -- with locations in
    registry order and, within a location, flood, fire, earthquake; the
    returned events are appended, in that order, to the active list and to
    the history list. *)
Theorem detect_disasters_events :
  forall (self : DisasterEnvironment.t) (w : World),
  exists new self' w',
    DisasterEnvironment.detect_disasters self w = (Ok (new, self'), w') /\
    map DetectorProps.content new
    = DetectorProps.expected (DisasterEnvironment.conditions self) /\
    DisasterEnvironment.active_disasters self'
    = DisasterEnvironment.active_disasters self ++ new /\
    DisasterEnvironment.event_history self'
    = DisasterEnvironment.event_history self ++ new.
Proof.
  intros self w.
  destruct (DetectorFacts.detect_disasters_spec self w)
    as (new & w' & E & K & _).
  eexists new, _, w'. split; [exact E |]. repeat split. exact K.
Qed.

(* ------------------------------------------------------------------ *)
(** ** Construction *)

Module ConstructionFacts.
Import DisasterEnvironment.

Lemma location_names_nonempty :
  Forall (fun n => n <> EmptyString) location_names.
Proof. repeat constructor; discriminate. Qed.

Lemma location_names_nodup : NoDup location_names.
Proof.
  assert (E : nodup string_dec location_names = location_names)
    by (vm_compute; reflexivity).
  rewrite <- E. apply NoDup_nodup.
Qed.

Lemma init_keeps_name `{PyRuntime} (x y : Q) (n : string) :
  n <> EmptyString -> Location.name (Location.init x y n) = n.
Proof. destruct n; [congruence | reflexivity]. Qed.

Lemma skipn_nth_error {A} (l : list A) :
  forall (a : nat) (x : A),
  nth_error l a = Some x -> skipn a l = x :: skipn (S a) l.
Proof.
  induction l as [| y l IH]; intros [| a] x E; try discriminate.
  - now injection E as ->.
  - cbn in E. cbn [skipn]. exact (IH a x E).
Qed.

(** The loop of [_generate_locations], started at index [a]. *)
Lemma generate_loop `{PyRuntime} (k : nat) :
  forall (a : nat) (acc : list Location.t) (w : World),
  (a + k <= List.length location_names)%nat ->
  exists locs w',
    for_loop
      (fun i locations =>
         x <- uniform 0 100 ;;
         y <- uniform 0 100 ;;
         name <- match nth_error location_names i with
                 | Some name => ret name
                 | None => lift (Raise IndexError)
                 end ;;
         ret (locations ++ [Location.init x y name]))
      (seq a k) acc w = (Ok (acc ++ locs), w') /\
    map Location.name locs = firstn k (skipn a location_names) /\
    trace w' = trace w.
Proof.
  induction k as [| k IH]; intros a acc w Hk.
  - exists [], w. cbn. rewrite app_nil_r. repeat split.
  - destruct (nth_error location_names a) as [n |] eqn:En.
    2:{ apply nth_error_None in En. lia. }
    cbn [seq for_loop].
    erewrite bind_ok.
    2:{ erewrite bind_ok by apply uniform_eq.
        erewrite bind_ok by apply uniform_eq.
        rewrite En. reflexivity. }
    match goal with |- context [for_loop _ (seq (S a) k) ?acc0 ?w0] =>
      destruct (IH (S a) acc0 w0) as (locs & w' & E & Hn & Ht); [lia |]
    end.
    rewrite E. eexists (_ :: locs), w'. split; [| split].
    + now rewrite <- app_assoc.
    + cbn [map]. rewrite Hn.
      rewrite init_keeps_name.
      * rewrite (skipn_nth_error _ _ _ En). reflexivity.
      * pose proof location_names_nonempty as F.
        rewrite Forall_forall in F. apply F.
        eapply nth_error_In. exact En.
    + exact Ht.
Qed.

Lemma generate_locations_spec `{PyRuntime} (num : Z) (w : World) :
  exists locs w',
    _generate_locations num w = (Ok locs, w') /\
    map Location.name locs
    = firstn (Z.to_nat (Z.min num 10)) location_names /\
    trace w' = trace w.
Proof.
  unfold _generate_locations, range.
  change (Z.of_nat (List.length location_names)) with 10%Z.
  destruct (generate_loop (Z.to_nat (Z.min num 10)) 0 [] w)
    as (locs & w' & E & Hn & Ht).
  - change (List.length location_names) with 10%nat. lia.
  - exists locs, w'. repeat split; assumption.
Qed.

Lemma conditions_init_spec (loc : Location.t) (w : World) :
  exists c w',
    EnvironmentalConditions.init loc w = (Ok c, w') /\
    EnvironmentalConditions.location c = loc /\
    trace w' = trace w.
Proof.
  eexists. eexists. split; [reflexivity |]. split; reflexivity.
Qed.

(** The comprehension that builds [self.conditions]. *)
Lemma conditions_spec (locs : list Location.t) :
  forall w : World,
  exists cs w',
    for_each (fun loc => c <- EnvironmentalConditions.init loc ;; ret (loc, c))
             locs w = (Ok cs, w') /\
    map fst cs = locs /\
    Forall (fun kv => EnvironmentalConditions.location (snd kv) = fst kv) cs /\
    trace w' = trace w.
Proof.
  induction locs as [| loc rest IH]; intros w.
  - exists [], w. repeat split. constructor.
  - cbn [for_each].
    destruct (conditions_init_spec loc w) as (c & w1 & E1 & L1 & T1).
    destruct (IH w1) as (cs & w' & E & Hk & Hl & Ht).
    erewrite bind_ok by (erewrite bind_ok by exact E1; reflexivity).
    erewrite bind_ok by exact E.
    exists ((loc, c) :: cs), w'. split; [reflexivity |]. split; [| split].
    + cbn. now rewrite Hk.
    + constructor; [exact L1 | exact Hl].
    + congruence.
Qed.

Lemma init_spec `{PyRuntime} (num : Z) (w : World) :
  exists locs cs w',
    init num w = (Ok (mk locs cs [] []), w') /\
    map Location.name locs
    = firstn (Z.to_nat (Z.min num 10)) location_names /\
    map fst cs = locs /\
    Forall (fun kv => EnvironmentalConditions.location (snd kv) = fst kv) cs /\
    trace w' = trace w.
Proof.
  destruct (generate_locations_spec num w) as (locs & w1 & E1 & Hn & T1).
  destruct (conditions_spec locs w1) as (cs & w2 & E2 & Hk & Hl & T2).
  exists locs, cs, w2. unfold init.
  erewrite bind_ok by exact E1.
  erewrite bind_ok by exact E2.
  repeat split; try assumption. congruence.
Qed.
End ConstructionFacts.

(** C10: for every requested count, construction returns an environment
    with min(num, 10) locations (none for a negative request), so exactly
    10 when more than 10 are requested; their names are distinct, and the
    conditions table has one record per location, in the same order, each
    naming its location. *)
Theorem init_caps_locations `{PyRuntime} (num : Z) (w : World) :
  exists self w',
    DisasterEnvironment.init num w = (Ok self, w') /\
    List.length (DisasterEnvironment.locations self)
    = Z.to_nat (Z.min num 10) /\
    (0 <= num ->
     Z.of_nat (List.length (DisasterEnvironment.locations self))
     = Z.min num 10)%Z /\
    (10 < num ->
     Z.of_nat (List.length (DisasterEnvironment.locations self)) = 10)%Z /\
    NoDup (map Location.name (DisasterEnvironment.locations self)) /\
    map fst (DisasterEnvironment.conditions self)
    = DisasterEnvironment.locations self /\
    Forall (fun kv => EnvironmentalConditions.location (snd kv) = fst kv)
           (DisasterEnvironment.conditions self).
Proof.
  destruct (ConstructionFacts.init_spec num w)
    as (locs & cs & w' & E & Hn & Hk & Hl & _).
  exists (DisasterEnvironment.mk locs cs [] []), w'.
  cbn [DisasterEnvironment.locations DisasterEnvironment.conditions].
  assert (Hlen : List.length locs = Z.to_nat (Z.min num 10)).
  { rewrite <- (length_map Location.name), Hn, length_firstn.
    change (List.length DisasterEnvironment.location_names) with 10%nat.
    lia. }
  split; [exact E |]. split; [exact Hlen |].
  split; [rewrite Hlen; lia |]. split; [rewrite Hlen; lia |].
  split; [| split; assumption].
  rewrite Hn.
  pose proof ConstructionFacts.location_names_nodup as N.
  rewrite <- (firstn_skipn (Z.to_nat (Z.min num 10))
                DisasterEnvironment.location_names) in N.
  now apply NoDup_app_remove_r in N.
Qed.


(** Twelve locations requested of the sample world: ten are created. *)
Lemma init_caps_locations_witness :
  ((0 <= 12)%Z /\ (10 < 12)%Z) /\
  exists self w',
    @DisasterEnvironment.init Samples.runtime 12 Samples.world
    = (Ok self, w') /\
    Z.of_nat (List.length (DisasterEnvironment.locations self)) = 10%Z.
Proof.
  split; [split; lia |].
  destruct (@init_caps_locations Samples.runtime 12 Samples.world)
    as (self & w' & E & _ & _ & H10 & _).
  exists self, w'. split; [exact E | apply H10; reflexivity].
Defined.

(** C7 as stated fails: a request for zero locations builds an environment
    with no location, and an agent with interval -1 is built as well. *)
Lemma construction_accepts_degenerate_configuration :
  (exists self w',
     @DisasterEnvironment.init Samples.runtime 0 Samples.world
     = (Ok self, w') /\
     DisasterEnvironment.locations self = []) /\
  (exists agent w',
     @SensorAgent.init Samples.runtime "sensor" "secret" 5 (-1) None false
                       Samples.world
     = (Ok agent, w') /\
     SensorAgent.monitoring_interval agent = -1) /\
  ~ (exists e w',
       @DisasterEnvironment.init Samples.runtime 0 Samples.world
       = (Raise e, w')) /\
  ~ (exists e w',
       @SensorAgent.init Samples.runtime "sensor" "secret" 5 (-1) None false
                         Samples.world
       = (Raise e, w')).
Proof.
  split; [| split; [| split]].
  - eexists. eexists. split; [vm_compute; reflexivity | reflexivity].
  - eexists. eexists. split; [vm_compute; reflexivity | reflexivity].
  - intros (e & w' & E). vm_compute in E. discriminate E.
  - intros (e & w' & E). vm_compute in E. discriminate E.
Qed.

(** C7, amended: construction validates nothing and never fails. For every
    requested count the environment is built, with no location and no
    conditions record when the count is zero or negative; for every
    interval the agent is built and keeps the interval as given. *)
Theorem construction_never_rejects `{PyRuntime}
    (jid password : string) (num : Z) (interval : Q)
    (coordinator : option string) (simulate : bool) (w : World) :
  (exists self w',
     DisasterEnvironment.init num w = (Ok self, w') /\
     ((num <= 0)%Z ->
      DisasterEnvironment.locations self = [] /\
      DisasterEnvironment.conditions self = [])) /\
  (exists agent w',
     SensorAgent.init jid password num interval coordinator simulate w
     = (Ok agent, w') /\
     SensorAgent.monitoring_interval agent = interval /\
     SensorAgent.num_locations agent = num /\
     ((num <= 0)%Z ->
      DisasterEnvironment.locations (SensorAgent.environment agent) = [])).
Proof.
  destruct (ConstructionFacts.init_spec num w)
    as (locs & cs & w' & E & Hn & Hk & _).
  assert (Hnil : (num <= 0)%Z -> locs = [] /\ cs = []).
  { intros Hle.
    replace (Z.to_nat (Z.min num 10)) with 0%nat in Hn by lia.
    cbn in Hn. apply map_eq_nil in Hn. subst locs.
    apply map_eq_nil in Hk. now split. }
  split.
  - eexists. exists w'. split; [exact E | exact Hnil].
  - eexists. exists w'. unfold SensorAgent.init.
    erewrite bind_ok by exact E.
    split; [reflexivity |]. cbn. repeat split.
    intros Hle. now apply Hnil.
Qed.

(** Zero locations and a zero interval: both objects are built. *)
Lemma construction_never_rejects_witness :
  (0 <= 0)%Z /\
  exists agent w',
    @SensorAgent.init Samples.runtime "sensor" "secret" 0 0 None false
                      Samples.world
    = (Ok agent, w') /\
    DisasterEnvironment.locations (SensorAgent.environment agent) = [].
Proof.
  split; [lia |].
  destruct (@construction_never_rejects Samples.runtime "sensor" "secret"
              0 0 None false Samples.world)
    as (_ & agent & w' & E & _ & _ & Hnil).
  exists agent, w'. split; [exact E | apply Hnil; lia].
Defined.

(* ------------------------------------------------------------------ *)
(** ** Event store *)

Module StoreFacts.
Import DisasterEnvironment StoreProps.

Lemma choice_nonempty {A} (seq : list A) (w : World) :
  seq <> [] ->
  exists x, choice seq w = (Ok x, advance w) /\ In x seq.
Proof.
  destruct seq as [| x rest]; [congruence | intros _].
  eexists. split; [reflexivity |].
  apply nth_In.
  assert (N.of_nat (List.length (x :: rest)) <> 0%N) by (cbn; lia).
  pose proof (N.mod_lt (entropy w (drawn w))
                (N.of_nat (List.length (x :: rest))) H).
  lia.
Qed.

(** The loop of [update_conditions]. *)
Lemma update_loop (items : list (Location.t * EnvironmentalConditions.t)) :
  forall w : World,
  exists cs w',
    for_each (fun kv => c <- EnvironmentalConditions.update (snd kv) ;;
                        ret (fst kv, c))
             items w = (Ok cs, w') /\
    map fst cs = map fst items /\
    Forall (fun kv => ConditionProps.in_clamp_range (snd kv)) cs /\
    trace w' = trace w.
Proof.
  induction items as [| [loc c] rest IH]; intros w.
  - exists [], w. repeat split. constructor.
  - destruct (ConditionFacts.update_in_range c w) as (c1 & w1 & E1 & R1).
    assert (T1 : trace w1 = trace w).
    { unfold EnvironmentalConditions.update in E1.
      repeat (erewrite bind_ok in E1 by apply uniform_eq).
      injection E1 as _ <-. reflexivity. }
    destruct (IH w1) as (cs & w' & E & Hk & Hr & Ht).
    cbn [for_each].
    erewrite bind_ok by (erewrite bind_ok by exact E1; reflexivity).
    erewrite bind_ok by exact E.
    exists ((loc, c1) :: cs), w'. split; [reflexivity |]. split; [| split].
    + cbn. now rewrite Hk.
    + constructor; assumption.
    + congruence.
Qed.

Lemma update_conditions_spec (self : t) (w : World) :
  exists cs w',
    update_conditions self w
    = (Ok (mk (locations self) cs (active_disasters self)
              (event_history self)), w') /\
    map fst cs = map fst (conditions self) /\
    Forall (fun kv => ConditionProps.in_clamp_range (snd kv)) cs /\
    trace w' = trace w ++ [Called "update_conditions"].
Proof.
  unfold update_conditions.
  erewrite bind_ok by apply emit_eq.
  destruct (update_loop (conditions self)
              (logged (Called "update_conditions") w))
    as (cs & w' & E & Hk & Hr & Ht).
  erewrite bind_ok by exact E.
  exists cs, w'. repeat split; assumption.
Qed.

(** Synthetic injection either raises before it writes anything (there is
    no location to choose from) or appends its one event to both lists. *)
Lemma simulate_random_disaster_spec (self : t) (w : World) :
  exists w',
    trace w' = trace w ++ [Called "simulate_random_disaster"] /\
    ((locations self = [] /\
      simulate_random_disaster self w = (Raise IndexError, w')) \/
     (exists event,
        simulate_random_disaster self w
        = (Ok (event, mk (locations self) (conditions self)
                         (active_disasters self ++ [event])
                         (event_history self ++ [event])), w') /\
        In (DisasterEvent.location event) (locations self) /\
        DisasterEvent.disaster_type event <> DisasterType.NONE /\
        DisasterEvent.severity event <> SeverityLevel.NONE)).
Proof.
  unfold simulate_random_disaster.
  erewrite bind_ok by apply emit_eq.
  set (w0 := logged (Called "simulate_random_disaster") w).
  destruct (choice_nonempty
              [DisasterType.FLOOD; DisasterType.EARTHQUAKE;
               DisasterType.FIRE] w0) as (ty & E1 & I1);
    [discriminate |].
  erewrite bind_ok by exact E1.
  destruct (choice_nonempty
              [SeverityLevel.LOW; SeverityLevel.MEDIUM;
               SeverityLevel.HIGH; SeverityLevel.CRITICAL] (advance w0))
    as (sv & E2 & I2); [discriminate |].
  erewrite bind_ok by exact E2.
  destruct (locations self) as [| l ls] eqn:El.
  - eexists. split; [| left; split; [reflexivity |]].
    2:{ erewrite bind_raise by reflexivity. reflexivity. }
    reflexivity.
  - destruct (choice_nonempty (l :: ls) (advance (advance w0)))
      as (loc & E3 & I3); [discriminate |].
    erewrite bind_ok by exact E3.
    eexists. split; [| right; eexists; split; [reflexivity |]].
    + reflexivity.
    + cbn [DisasterEvent.location DisasterEvent.disaster_type
           DisasterEvent.severity].
      split; [exact I3 |]. split.
      * cbn in I1. intuition congruence.
      * cbn in I2. intuition congruence.
Qed.

(** Every operation adds the same events at the end of both lists. *)
Lemma step_appends (op : Op) (self : t) (w : World) :
  exists added,
    active_disasters (fst (step op self w))
    = active_disasters self ++ added /\
    event_history (fst (step op self w)) = event_history self ++ added.
Proof.
  destruct op; unfold step.
  - destruct (update_conditions_spec self w) as (cs & w' & E & _).
    rewrite E. exists []. cbn. now rewrite !app_nil_r.
  - destruct (DetectorFacts.detect_disasters_spec self w)
      as (new & w' & E & _).
    rewrite E. exists new. split; reflexivity.
  - destruct (simulate_random_disaster_spec self w)
      as (w' & _ & [[_ E] | (event & E & _)]); rewrite E.
    + exists []. cbn. now rewrite !app_nil_r.
    + exists [event]. split; reflexivity.
Qed.

Lemma steps_append (ops : list Op) :
  forall (self : t) (w : World),
  exists added,
    active_disasters (fst (steps ops self w))
    = active_disasters self ++ added /\
    event_history (fst (steps ops self w)) = event_history self ++ added.
Proof.
  induction ops as [| op rest IH]; intros self w.
  - exists []. cbn. now rewrite !app_nil_r.
  - cbn [steps].
    destruct (step_appends op self w) as (a1 & A1 & H1).
    destruct (step op self w) as [self1 w1]. cbn [fst] in A1, H1.
    destruct (IH self1 w1) as (a2 & A2 & H2).
    exists (a1 ++ a2). rewrite A2, H2, A1, H1. now rewrite !app_assoc.
Qed.
End StoreFacts.

(** C6: whatever the sequence of operations, the active list and the
    history list only grow at the end -- what was in a list stays, at its
    position, so no list gets shorter -- and in every state reached from a
    freshly built environment each active event is in the history. *)
Theorem event_store_append_only `{PyRuntime} :
  (forall (ops : list StoreProps.Op) (self : DisasterEnvironment.t)
          (w : World),
     let self' := fst (StoreProps.steps ops self w) in
     StoreProps.extends (DisasterEnvironment.active_disasters self)
                        (DisasterEnvironment.active_disasters self') /\
     StoreProps.extends (DisasterEnvironment.event_history self)
                        (DisasterEnvironment.event_history self') /\
     (List.length (DisasterEnvironment.active_disasters self)
      <= List.length (DisasterEnvironment.active_disasters self'))%nat /\
     (List.length (DisasterEnvironment.event_history self)
      <= List.length (DisasterEnvironment.event_history self'))%nat) /\
  (forall (num : Z) (w : World),
   exists self0 w0,
     DisasterEnvironment.init num w = (Ok self0, w0) /\
     forall ops : list StoreProps.Op,
       let self := fst (StoreProps.steps ops self0 w0) in
       incl (DisasterEnvironment.active_disasters self)
            (DisasterEnvironment.event_history self)).
Proof.
  split.
  - intros ops self w self'. subst self'.
    destruct (StoreFacts.steps_append ops self w) as (added & A & Hh).
    rewrite A, Hh, !length_app.
    repeat split; try (now exists added); lia.
  - intros num w.
    destruct (ConstructionFacts.init_spec num w)
      as (locs & cs & w0 & E & _).
    eexists. exists w0. split; [exact E |].
    intros ops self. subst self.
    destruct (StoreFacts.steps_append ops (DisasterEnvironment.mk locs cs [] [])
                w0) as (added & A & Hh).
    rewrite A, Hh. apply incl_refl.
Qed.

(** C9: each operation appends the same events to the active list and to
    the history list, and removes or changes nothing; so in every state
    reached from a freshly built environment the two lists are the same
    sequence. *)
Theorem active_list_equals_history `{PyRuntime} :
  (forall (op : StoreProps.Op) (self : DisasterEnvironment.t) (w : World),
   exists added,
     DisasterEnvironment.active_disasters (fst (StoreProps.step op self w))
     = DisasterEnvironment.active_disasters self ++ added /\
     DisasterEnvironment.event_history (fst (StoreProps.step op self w))
     = DisasterEnvironment.event_history self ++ added) /\
  (forall (num : Z) (w : World),
   exists self0 w0,
     DisasterEnvironment.init num w = (Ok self0, w0) /\
     forall ops : list StoreProps.Op,
       let self := fst (StoreProps.steps ops self0 w0) in
       DisasterEnvironment.active_disasters self
       = DisasterEnvironment.event_history self).
Proof.
  split; [exact StoreFacts.step_appends |].
  intros num w.
  destruct (ConstructionFacts.init_spec num w) as (locs & cs & w0 & E & _).
  eexists. exists w0. split; [exact E |].
  intros ops self. subst self.
  destruct (StoreFacts.steps_append ops (DisasterEnvironment.mk locs cs [] [])
              w0) as (added & A & Hh).
  now rewrite A, Hh.
Qed.

(* ------------------------------------------------------------------ *)
(** ** Monitoring tick *)

Module TickFacts.
Import EnvironmentMonitoringBehaviour TickProps.

Lemma calls_app (name : string) (tr1 tr2 : list Effect) :
  calls name (tr1 ++ tr2) = (calls name tr1 + calls name tr2)%nat.
Proof. unfold calls. now rewrite filter_app, length_app. Qed.

Lemma calls_logged (name : string) (e : Effect) (w : World) :
  calls name (trace (logged e w))
  = (calls name (trace w) + if is_call name e then 1 else 0)%nat.
Proof.
  cbn [logged trace]. rewrite calls_app. f_equal.
  unfold calls. cbn. now destruct (is_call name e).
Qed.

Lemma calls_other (name method : string) (tr : list Effect) :
  method <> name -> calls name (tr ++ [Called method]) = calls name tr.
Proof.
  intros N. rewrite calls_app. unfold calls at 2. cbn [filter is_call].
  apply String.eqb_neq in N. rewrite N. cbn. lia.
Qed.

Lemma calls_same (name : string) (tr : list Effect) :
  calls name (tr ++ [Called name]) = S (calls name tr).
Proof.
  rewrite calls_app. unfold calls at 2. cbn [filter is_call].
  rewrite String.eqb_refl. cbn. lia.
Qed.

Lemma report_spec (name : string) (agent : SensorAgent.t)
    (disaster : DisasterEvent.t) (w : World) :
  exists w',
    _report_disaster agent disaster w = (Ok tt, w') /\
    calls name (trace w') = calls name (trace w).
Proof.
  unfold _report_disaster.
  destruct (SensorAgent.coordinator_jid agent) as [[| c to] |].
  - exists w. now split.
  - eexists. split; [apply emit_eq |].
    rewrite calls_logged. cbn. lia.
  - exists w. now split.
Qed.

(** The loop that logs and reports what was detected touches neither the
    environment nor the stimulus switch, and enters no method of the
    environment. *)
Lemma report_loop (name : string) (new : list DisasterEvent.t) :
  forall (agent : SensorAgent.t) (w : World),
  exists agent' w',
    for_loop (fun disaster agent =>
                let agent := _log_disaster_event agent disaster in
                _report_disaster agent disaster ;;; ret agent)
             new agent w = (Ok agent', w') /\
    SensorAgent.environment agent' = SensorAgent.environment agent /\
    SensorAgent.simulate_disasters agent'
    = SensorAgent.simulate_disasters agent /\
    calls name (trace w') = calls name (trace w) /\
    entropy w' = entropy w /\ drawn w' = drawn w.
Proof.
  induction new as [| d rest IH]; intros agent w.
  - exists agent, w. repeat split.
  - destruct (report_spec name (_log_disaster_event agent d) d w)
      as (w1 & E1 & C1).
    assert (G1 : entropy w1 = entropy w /\ drawn w1 = drawn w).
    { unfold _report_disaster in E1.
      destruct (SensorAgent.coordinator_jid (_log_disaster_event agent d))
        as [[| c to] |]; injection E1 as <-; split; reflexivity. }
    destruct (IH (_log_disaster_event agent d) w1)
      as (agent' & w' & E & He & Hs & Hc & Hg & Hd).
    exists agent', w'. split.
    + cbn [for_loop]. cbv zeta.
      erewrite bind_ok by (erewrite bind_ok by exact E1; reflexivity).
      exact E.
    + destruct G1. cbn in He, Hs. repeat split; congruence.
Qed.

Lemma monitor_spec (name : string) (agent : SensorAgent.t) (w : World) :
  name <> "update_conditions"%string ->
  name <> "detect_disasters"%string ->
  exists agent1 w1,
    monitor agent w = (Ok agent1, w1) /\
    SensorAgent.simulate_disasters agent1
    = SensorAgent.simulate_disasters agent /\
    (active_count agent <= active_count agent1)%nat /\
    calls name (trace w1) = calls name (trace w).
Proof.
  intros N1 N2. unfold monitor.
  erewrite bind_ok by reflexivity.
  match goal with |- context [bind _ _ ?w0] => set (wa := w0) end.
  destruct (StoreFacts.update_conditions_spec
              (SensorAgent.environment agent) wa)
    as (cs & wb & Eb & _ & _ & Tb).
  erewrite bind_ok by exact Eb.
  unfold DisasterEnvironment.get_all_conditions. cbv zeta.
  match goal with |- context [DisasterEnvironment.detect_disasters ?e] =>
    destruct (DetectorFacts.detect_disasters_spec e wb)
      as (new & wc & Ec & _ & _ & _ & Tc)
  end.
  erewrite bind_ok by exact Ec.
  cbv beta iota zeta.
  match goal with |- context [for_loop _ new ?a wc] =>
    destruct (report_loop name new a wc)
      as (agent1 & w1 & E1 & He & Hs & Hc & _)
  end.
  exists agent1, w1. split; [exact E1 |]. split; [| split].
  - rewrite Hs. reflexivity.
  - unfold active_count. rewrite He. cbn. rewrite length_app. lia.
  - rewrite Hc, Tc, Tb. subst wa.
    now rewrite !calls_other by congruence.
Qed.

Lemma stimulate_spec (agent : SensorAgent.t) (w : World) :
  exists r w',
    stimulate agent w = (r, w') /\
    ((SensorAgent.simulate_disasters agent = true /\
      (active_count agent < 3)%nat /\ next_draw w < 1 # 10) ->
     calls "simulate_random_disaster" (trace w')
     = S (calls "simulate_random_disaster" (trace w))) /\
    ((SensorAgent.simulate_disasters agent = false \/
      (3 <= active_count agent)%nat \/ 1 # 10 <= next_draw w) ->
     calls "simulate_random_disaster" (trace w')
     = calls "simulate_random_disaster" (trace w) /\
     r = Ok agent).
Proof.
  unfold stimulate. fold (active_count agent).
  destruct (SensorAgent.simulate_disasters agent) eqn:Es; cbn [andb].
  2:{ exists (Ok agent), w. split; [reflexivity |]. split.
      - intros (F & _). discriminate F.
      - intros _. now split. }
  destruct (Nat.ltb_spec (active_count agent) 3) as [Hc | Hc].
  2:{ exists (Ok agent), w. split; [reflexivity |]. split.
      - intros (_ & F & _). lia.
      - intros _. now split. }
  erewrite bind_ok by apply random_eq.
  destruct (Qltb_spec (next_draw w) float_0_1) as [Hd | Hd].
  2:{ exists (Ok agent), (advance w). split; [reflexivity |]. split.
      - intros (_ & _ & F). now apply draw_below_tenth in F.
      - intros _. now split. }
  apply draw_below_tenth in Hd.
  destruct (StoreFacts.simulate_random_disaster_spec
              (SensorAgent.environment agent) (advance w))
    as (w1 & T1 & [[_ E1] | (event & E1 & _)]).
  - eexists. exists w1. split; [erewrite bind_raise by exact E1; reflexivity |].
    split.
    + intros _. rewrite T1, trace_advance. apply calls_same.
    + intros [F | [F | F]]; [discriminate F | lia | exfalso; lra].
  - erewrite bind_ok by exact E1. cbv beta iota zeta.
    match goal with |- context [_report_disaster ?a ?d] =>
      destruct (report_spec "simulate_random_disaster" a d w1)
        as (w2 & E2 & C2)
    end.
    erewrite bind_ok by exact E2.
    eexists. exists w2. split; [reflexivity |]. split.
    + intros _. rewrite C2, T1, trace_advance. apply calls_same.
    + intros [F | [F | F]]; [discriminate F | lia | exfalso; lra].
Qed.
End TickFacts.

(** C8: a tick enters [simulate_random_disaster] exactly when stimulus mode
    is on, fewer than 3 events are active once detection has run, and the
    random draw of the tick is below 0.1. With stimulus mode off, or with 3
    or more active events (at the gate, or already before the tick), the
    tick ends with what monitoring left, and no injection is called. *)
Theorem injection_gate (agent : SensorAgent.t) (w : World) :
  exists agent1 w1 r w',
    EnvironmentMonitoringBehaviour.monitor agent w = (Ok agent1, w1) /\
    EnvironmentMonitoringBehaviour.run agent w = (r, w') /\
    ((SensorAgent.simulate_disasters agent = true /\
      (TickProps.active_count agent1 < 3)%nat /\ next_draw w1 < 1 # 10) ->
     TickProps.calls "simulate_random_disaster" (trace w')
     = S (TickProps.calls "simulate_random_disaster" (trace w))) /\
    ((SensorAgent.simulate_disasters agent = false \/
      (3 <= TickProps.active_count agent1)%nat \/ 1 # 10 <= next_draw w1) ->
     TickProps.calls "simulate_random_disaster" (trace w')
     = TickProps.calls "simulate_random_disaster" (trace w) /\
     r = Ok agent1) /\
    ((3 <= TickProps.active_count agent)%nat ->
     TickProps.calls "simulate_random_disaster" (trace w')
     = TickProps.calls "simulate_random_disaster" (trace w)).
Proof.
  destruct (TickFacts.monitor_spec "simulate_random_disaster" agent w)
    as (agent1 & w1 & E1 & Hs & Hc & T1); [discriminate | discriminate |].
  destruct (TickFacts.stimulate_spec agent1 w1) as (r & w' & E2 & On & Off).
  exists agent1, w1, r, w'.
  split; [exact E1 |]. split.
  { unfold EnvironmentMonitoringBehaviour.run.
    erewrite bind_ok by exact E1. exact E2. }
  rewrite Hs in On, Off. rewrite T1 in On, Off.
  split; [exact On |]. split.
  - exact Off.
  - intros G. apply Off. right. left. lia.
Qed.


(** With stimulus mode off a tick of the sample agent injects nothing. *)
Lemma injection_gate_witness :
  SensorAgent.simulate_disasters (Samples.agent false) = false /\
  exists r w',
    EnvironmentMonitoringBehaviour.run (Samples.agent false) Samples.world
    = (r, w') /\
    TickProps.calls "simulate_random_disaster" (trace w')
    = TickProps.calls "simulate_random_disaster" (trace Samples.world).
Proof.
  split; [reflexivity |].
  destruct (injection_gate (Samples.agent false) Samples.world)
    as (agent1 & w1 & r & w' & _ & E & _ & Off & _).
  exists r, w'. split; [exact E |].
  apply Off. left. reflexivity.
Defined.

(* ------------------------------------------------------------------ *)
(** ** Concrete cases *)

Module Cases.
Import DisasterEnvironment.

(** Water level 200 on the flood scale: ratio 1, critical. *)
Example flood_at_200 :
  _calculate_severity 200 150 200 = Ok SeverityLevel.CRITICAL.
Proof. reflexivity. Qed.

(** Smoke level 350 on the fire scale: ratio 0.25, medium. *)
Example fire_at_350 :
  _calculate_severity 350 300 500 = Ok SeverityLevel.MEDIUM.
Proof. reflexivity. Qed.

(** The cut-offs: 0.5 is high, 0.75 is critical, just below 0.25 is low. *)
Example fire_at_400 :
  _calculate_severity 400 300 500 = Ok SeverityLevel.HIGH.
Proof. reflexivity. Qed.

Example fire_at_450 :
  _calculate_severity 450 300 500 = Ok SeverityLevel.CRITICAL.
Proof. reflexivity. Qed.

Example fire_at_349 :
  _calculate_severity 349 300 500 = Ok SeverityLevel.LOW.
Proof. reflexivity. Qed.

(** A reading exactly at the threshold is graded low by the severity
    function, but raises no event: the rule tests are strict. *)
Example at_threshold :
  _calculate_severity 150 150 200 = Ok SeverityLevel.LOW.
Proof. reflexivity. Qed.

Example no_event_at_threshold :
  fst (detect_disasters
         (mk [Samples.downtown]
             [(Samples.downtown,
               EnvironmentalConditions.mk Samples.downtown 20 50 10 150 300 5)]
             [] [])
         Samples.world)
  = Ok ([],
        mk [Samples.downtown]
           [(Samples.downtown,
             EnvironmentalConditions.mk Samples.downtown 20 50 10 150 300 5)]
           [] []).
Proof. reflexivity. Qed.

(** Water level 151, everything else below its threshold: one flood event
    of low severity. *)
Example flood_at_151 :
  match detect_disasters
          (mk [Samples.downtown]
              [(Samples.downtown,
                EnvironmentalConditions.mk Samples.downtown 20 50 10 151 10 1)]
              [] [])
          Samples.world with
  | (Ok (new, _), _) =>
      map DetectorProps.content new
      = [(DisasterType.FLOOD, SeverityLevel.LOW, Samples.downtown)]
  | _ => False
  end.
Proof. reflexivity. Qed.

(** All three rules satisfied at one location: flood, fire, earthquake. *)
Example three_events :
  match detect_disasters
          (mk [Samples.downtown]
              [(Samples.downtown,
                EnvironmentalConditions.mk Samples.downtown 20 50 10 190 500 6)]
              [] [])
          Samples.world with
  | (Ok (new, self'), _) =>
      map DetectorProps.content new
      = [(DisasterType.FLOOD, SeverityLevel.CRITICAL, Samples.downtown);
         (DisasterType.FIRE, SeverityLevel.CRITICAL, Samples.downtown);
         (DisasterType.EARTHQUAKE, SeverityLevel.LOW, Samples.downtown)] /\
      active_disasters self' = new /\ event_history self' = new
  | _ => False
  end.
Proof. repeat split. Qed.

(** One tick of the sample agent, stimulus off and no recipient: one fire
    event, one active event, one history entry, nothing sent. *)
Example tick_without_stimulus :
  match EnvironmentMonitoringBehaviour.run (Samples.agent false)
          Samples.world with
  | (Ok agent, w') =>
      map DetectorProps.content
          (active_disasters (SensorAgent.environment agent))
      = [(DisasterType.FIRE, SeverityLevel.MEDIUM, Samples.downtown)] /\
      List.length (event_history (SensorAgent.environment agent)) = 1%nat /\
      List.length (SensorAgent.detected_events agent) = 1%nat /\
      trace w' = [Called "update_conditions"; Called "detect_disasters"]
  | _ => False
  end.
Proof. vm_compute. repeat split. Qed.

(** The same tick with stimulus on: the draw of the sample world is below
    0.1, so a second event is injected. *)
Example tick_with_stimulus :
  match EnvironmentMonitoringBehaviour.run (Samples.agent true)
          Samples.world with
  | (Ok agent, w') =>
      List.length (active_disasters (SensorAgent.environment agent)) = 2%nat /\
      TickProps.calls "simulate_random_disaster" (trace w') = 1%nat
  | _ => False
  end.
Proof. vm_compute. repeat split. Qed.

(** Injection into an environment without locations raises. *)
Example inject_without_locations :
  fst (simulate_random_disaster (mk [] [] [] []) Samples.world)
  = Raise IndexError.
Proof. reflexivity. Qed.
End Cases.

(* ------------------------------------------------------------------ *)
(** ** Further properties: the condition simulator *)

Module SimulatorFacts.
Import EnvironmentalConditions SimulatorProps.

Lemma next_draw_range (w : World) : 0 <= next_draw w /\ next_draw w <= 1.
Proof.
  unfold next_draw, Qle. cbn [Qnum Qden].
  pose proof (N.mod_lt (entropy w (drawn w)) (2 ^ 53)) as B.
  set (k := (entropy w (drawn w) mod 2 ^ 53)%N) in *.
  change (Z.pos (2 ^ 53)) with 9007199254740992%Z.
  lia.
Qed.

Lemma update_eq (c : t) (w : World) :
  update c w
  = (Ok (perturbed c w),
     advance (advance (advance (advance (advance (advance w)))))).
Proof. reflexivity. Qed.

Lemma init_in_range (loc : Location.t) (w : World) :
  exists c,
    init loc w
    = (Ok c, advance (advance (advance (advance (advance (advance w)))))) /\
    location c = loc /\ in_initial_range c.
Proof.
  exists (mk loc
            (15 + (35 - 15) * next_draw w)
            (30 + (90 - 30) * next_draw (advance w))
            (0 + (50 - 0) * next_draw (advance (advance w)))
            (0 + (100 - 0) * next_draw (advance (advance (advance w))))
            (0 + (100 - 0)
                 * next_draw (advance (advance (advance (advance w)))))
            (0 + (10 - 0)
                 * next_draw
                     (advance (advance (advance (advance (advance w))))))).
  split; [reflexivity |]. split; [reflexivity |].
  unfold in_initial_range.
  cbn [temperature humidity wind_speed water_level smoke_level
       seismic_activity].
  pose proof (next_draw_range w).
  pose proof (next_draw_range (advance w)).
  pose proof (next_draw_range (advance (advance w))).
  pose proof (next_draw_range (advance (advance (advance w)))).
  pose proof (next_draw_range (advance (advance (advance (advance w))))).
  pose proof (next_draw_range
                (advance (advance (advance (advance (advance w)))))).
  repeat split; lra.
Qed.

Lemma initial_in_clamp (c : t) :
  in_initial_range c -> ConditionProps.in_clamp_range c.
Proof.
  unfold in_initial_range, ConditionProps.in_clamp_range.
  intros (H1 & H2 & H3 & H4 & H5 & H6). repeat split; lra.
Qed.

(** Clamping a perturbed value of a field that was inside the range does
    not move it further away than the perturbation did. *)
Lemma clamp_within (lo hi d old v : Q) :
  lo <= old <= hi -> within d old v ->
  within d old (py_max lo (py_min hi v)).
Proof.
  unfold within, py_max, py_min. intros Hold Hv.
  destruct (Qltb_spec v hi);
    match goal with |- context [Qltb ?a ?b] => destruct (Qltb_spec a b) end;
    lra.
Qed.

Lemma perturbed_one_step (c : t) (w : World) :
  ConditionProps.in_clamp_range c -> one_step c (perturbed c w).
Proof.
  unfold ConditionProps.in_clamp_range, one_step, perturbed.
  intros (H1 & H2 & H3 & H4 & H5 & H6).
  cbn [location temperature humidity wind_speed water_level smoke_level
       seismic_activity].
  pose proof (next_draw_range w).
  pose proof (next_draw_range (advance w)).
  pose proof (next_draw_range (advance (advance w))).
  pose proof (next_draw_range (advance (advance (advance w)))).
  pose proof (next_draw_range (advance (advance (advance (advance w))))).
  pose proof (next_draw_range
                (advance (advance (advance (advance (advance w)))))).
  split; [reflexivity |].
  repeat split;
    (apply clamp_within; [assumption | unfold within; lra]).
Qed.

(** A level that was at most [bound] is at most [bound + 10] afterwards,
    in range or not. *)
Lemma perturbed_levels (bound : Q) (c : t) (w : World) :
  0 <= bound -> levels_below bound c ->
  levels_below (bound + 10) (perturbed c w).
Proof.
  unfold levels_below, perturbed. intros Hb [Hw Hs].
  cbn [water_level smoke_level].
  pose proof (next_draw_range (advance (advance (advance w)))).
  pose proof (next_draw_range (advance (advance (advance (advance w))))).
  unfold py_max, py_min.
  split;
    repeat match goal with
           | |- context [Qltb ?a ?b] => destruct (Qltb_spec a b)
           end; lra.
Qed.
End SimulatorFacts.

(** A new conditions record has its six fields inside the ranges they are
    drawn from -- temperature in [15,35], humidity in [30,90], wind speed
    in [0,50], water and smoke level in [0,100], seismic activity in
    [0,10] -- so inside the clamp ranges as well, and it names the location
    it was built for. *)
Theorem conditions_start_in_initial_ranges (loc : Location.t) (w : World) :
  exists c w',
    EnvironmentalConditions.init loc w = (Ok c, w') /\
    EnvironmentalConditions.location c = loc /\
    SimulatorProps.in_initial_range c /\
    ConditionProps.in_clamp_range c /\
    drawn w' = (drawn w + 6)%nat.
Proof.
  destruct (SimulatorFacts.init_in_range loc w) as (c & E & L & R).
  exists c. eexists. split; [exact E |].
  repeat split; try apply (SimulatorFacts.initial_in_clamp c R);
    try apply R; try exact L.
  cbn. lia.
Qed.

(** On a record that is inside the clamp ranges, one [update] moves no
    field by more than the amplitude of its perturbation: temperature by at
    most 2, humidity and wind speed by 5, water and smoke level by 10,
    seismic activity by 1; the location is kept. *)
Theorem update_moves_one_step (c : EnvironmentalConditions.t) (w : World) :
  ConditionProps.in_clamp_range c ->
  exists c' w',
    EnvironmentalConditions.update c w = (Ok c', w') /\
    SimulatorProps.one_step c c'.
Proof.
  intros Hc. eexists. eexists. split; [apply SimulatorFacts.update_eq |].
  now apply SimulatorFacts.perturbed_one_step.
Qed.

(** The record of the sample environment moves by one step. *)
Lemma update_moves_one_step_witness :
  ConditionProps.in_clamp_range
    (EnvironmentalConditions.mk Samples.downtown 20 50 10 50 400 1) /\
  exists c' w',
    EnvironmentalConditions.update
      (EnvironmentalConditions.mk Samples.downtown 20 50 10 50 400 1)
      Samples.world = (Ok c', w') /\
    SimulatorProps.one_step
      (EnvironmentalConditions.mk Samples.downtown 20 50 10 50 400 1) c'.
Proof.
  assert (H : ConditionProps.in_clamp_range
                (EnvironmentalConditions.mk Samples.downtown
                                            20 50 10 50 400 1)).
  { unfold ConditionProps.in_clamp_range. cbn.
    repeat split; vm_compute; discriminate. }
  split; [exact H |].
  exact (update_moves_one_step _ Samples.world H).
Defined.

(* ------------------------------------------------------------------ *)
(** ** Further properties: detection *)

Module DetectionFacts.
Import DisasterEnvironment DetectorProps ClockProps RegistryProps.

Lemma clock_read_zero (w : World) : clock_read 0 w w.
Proof. unfold clock_read. rewrite Nat.add_0_r. repeat split. Qed.

Lemma clock_read_add (n m : nat) (w1 w2 w3 : World) :
  clock_read n w1 w2 -> clock_read m w2 w3 -> clock_read (n + m) w1 w3.
Proof.
  intros (A1 & B1 & C1 & D1 & E1) (A2 & B2 & C2 & D2 & E2).
  unfold clock_read. repeat split; try congruence. lia.
Qed.

Lemma stamped_nil (w : World) : stamped w [].
Proof. split; [constructor | reflexivity]. Qed.

Lemma stamped_app (w w1 : World) (e1 e2 : list DisasterEvent.t) :
  stamped w e1 -> clock_read (List.length e1) w w1 -> stamped w1 e2 ->
  stamped w (e1 ++ e2).
Proof.
  intros [A1 T1] (R & C & _) [A2 T2]. split.
  - apply Forall_app. now split.
  - rewrite map_app, length_app, seq_app, map_app, T1, T2, R, C.
    reflexivity.
Qed.

(** One rule check of the loop body, with the clock. *)
Lemma check_rule_stamped (ty : DisasterType.t) (v thr mx : Q)
    (loc : Location.t) (acc : list DisasterEvent.t) (w : World) :
  thr < mx ->
  exists evs w',
    (if Qltb thr v then
       severity <- lift (_calculate_severity v thr mx) ;;
       event <- DisasterEvent.init ty severity loc None ;;
       ret (acc ++ [event])
     else ret acc) w = (Ok (acc ++ evs), w') /\
    stamped w evs /\ clock_read (List.length evs) w w'.
Proof.
  intros Hmx. destruct (Qltb_spec thr v) as [Hv | Hv].
  - rewrite SeverityFacts.severity_by_ratio by lra.
    eexists [_]. eexists. split; [reflexivity |]. split.
    + split; [repeat constructor | reflexivity].
    + unfold clock_read. cbn. repeat split. lia.
  - exists [], w. rewrite app_nil_r. split; [reflexivity |].
    split; [apply stamped_nil | apply clock_read_zero].
Qed.

Lemma detect_at_stamped (item : Location.t * EnvironmentalConditions.t)
    (acc : list DisasterEvent.t) (w : World) :
  exists evs w',
    detect_at item acc w = (Ok (acc ++ evs), w') /\
    stamped w evs /\ clock_read (List.length evs) w w'.
Proof.
  destruct item as [loc c]. unfold detect_at.
  destruct (check_rule_stamped DisasterType.FLOOD
              (EnvironmentalConditions.water_level c) 150 200 loc acc w)
    as (e1 & w1 & E1 & S1 & W1); [reflexivity |].
  destruct (check_rule_stamped DisasterType.FIRE
              (EnvironmentalConditions.smoke_level c) 300 500 loc
              (acc ++ e1) w1)
    as (e2 & w2 & E2 & S2 & W2); [reflexivity |].
  destruct (check_rule_stamped DisasterType.EARTHQUAKE
              (EnvironmentalConditions.seismic_activity c) 5 10 loc
              ((acc ++ e1) ++ e2) w2)
    as (e3 & w3 & E3 & S3 & W3); [reflexivity |].
  exists (e1 ++ e2 ++ e3), w3. split; [| split].
  - erewrite bind_ok by exact E1.
    erewrite bind_ok by exact E2.
    rewrite E3. now rewrite !app_assoc.
  - eapply stamped_app; [exact S1 | exact W1 |].
    eapply stamped_app; [exact S2 | exact W2 | exact S3].
  - rewrite !length_app.
    eapply clock_read_add; [exact W1 |].
    eapply clock_read_add; [exact W2 | exact W3].
Qed.

Lemma detect_loop_stamped
    (items : list (Location.t * EnvironmentalConditions.t)) :
  forall (acc : list DisasterEvent.t) (w : World),
  exists evs w',
    for_loop detect_at items acc w = (Ok (acc ++ evs), w') /\
    stamped w evs /\ clock_read (List.length evs) w w'.
Proof.
  induction items as [| item rest IH]; intros acc w.
  - exists [], w. cbn. rewrite app_nil_r. split; [reflexivity |].
    split; [apply stamped_nil | apply clock_read_zero].
  - destruct (detect_at_stamped item acc w) as (e1 & w1 & E1 & S1 & W1).
    destruct (IH (acc ++ e1) w1) as (e2 & w2 & E2 & S2 & W2).
    exists (e1 ++ e2), w2. split; [| split].
    + cbn [for_loop]. erewrite bind_ok by exact E1.
      rewrite E2. now rewrite app_assoc.
    + eapply stamped_app; eassumption.
    + rewrite length_app. eapply clock_read_add; eassumption.
Qed.

(** Everything [detect_disasters] does, in one statement. *)
Lemma detect_disasters_full (self : t) (w : World) :
  exists new w',
    detect_disasters self w
    = (Ok (new, mk (locations self) (conditions self)
                   (active_disasters self ++ new)
                   (event_history self ++ new)), w') /\
    map content new = expected (conditions self) /\
    stamped w new /\
    clock_read (List.length new)
               (logged (Called "detect_disasters") w) w'.
Proof.
  destruct (DetectorFacts.detect_disasters_spec self w)
    as (new & w' & E & K & _).
  destruct (detect_loop_stamped (conditions self) []
              (logged (Called "detect_disasters") w))
    as (new2 & w2 & E2 & S2 & W2).
  assert (E3 : detect_disasters self w
               = (Ok (new2, mk (locations self) (conditions self)
                               (active_disasters self ++ new2)
                               (event_history self ++ new2)), w2)).
  { unfold detect_disasters.
    erewrite bind_ok by apply emit_eq.
    erewrite bind_ok by exact E2. reflexivity. }
  rewrite E3 in E.
  assert (new2 = new) by congruence. assert (w2 = w') by congruence.
  subst new2 w2.
  exists new, w'. split; [exact E3 |]. split; [exact K |].
  split; [exact S2 | exact W2].
Qed.

Lemma expected_at_in (item : Location.t * EnvironmentalConditions.t)
    (ty : DisasterType.t) (sev : SeverityLevel.t) (loc : Location.t) :
  In (ty, sev, loc) (expected_at item) ->
  loc = fst item /\
  exists r,
    In r rules /\ satisfied (snd item) r = true /\ rule_type r = ty /\
    sev = SeverityProps.bucket_of_ratio
            ((reading r (snd item) - rule_threshold r)
             / (rule_max r - rule_threshold r)).
Proof.
  unfold expected_at. rewrite in_map_iff.
  intros (r & E & I). apply filter_In in I as [I S].
  injection E as <- <- <-. split; [reflexivity |].
  exists r. repeat split; assumption.
Qed.

Lemma expected_at_length (item : Location.t * EnvironmentalConditions.t) :
  (List.length (expected_at item) <= 3)%nat.
Proof.
  unfold expected_at. rewrite length_map.
  change 3%nat with (List.length rules). apply filter_length_le.
Qed.

Lemma expected_length
    (items : list (Location.t * EnvironmentalConditions.t)) :
  (List.length (expected items) <= 3 * List.length items)%nat.
Proof.
  induction items as [| item rest IH]; [cbn; lia |].
  unfold expected in *. cbn [flat_map]. rewrite length_app.
  pose proof (expected_at_length item). cbn [List.length]. lia.
Qed.

Lemma content_justified
    (items : list (Location.t * EnvironmentalConditions.t))
    (e : DisasterEvent.t) :
  In (content e) (expected items) -> justified items e.
Proof.
  unfold expected. rewrite in_flat_map.
  intros ([loc c] & I & Hin).
  apply expected_at_in in Hin as (L & r & Ir & S & Ty & Sv).
  cbn [fst snd] in *. exists c. rewrite L. split; [exact I |].
  unfold satisfied in S. apply Qltb_lt in S.
  unfold rules in Ir. cbn [In] in Ir.
  destruct Ir as [<- | [<- | [<- | []]]]; cbn in *.
  - left. repeat split; auto.
  - right. left. repeat split; auto.
  - right. right. repeat split; auto.
Qed.

Lemma bucket_not_none (r : Q) :
  SeverityProps.bucket_of_ratio r <> SeverityLevel.NONE.
Proof.
  unfold SeverityProps.bucket_of_ratio.
  repeat match goal with |- context [Qltb ?a ?b] => destruct (Qltb a b) end;
    discriminate.
Qed.
End DetectionFacts.

(** Every event [detect_disasters] returns is flagged active and is
    justified by the snapshot: its location has a record whose flood, fire
    or earthquake reading is strictly above the threshold of the event's
    type, and its severity is the bucket of that reading; so its type and
    its severity are never the "none" members, and at most three events
    are returned per record. Locations and conditions are left as they
    were. *)
Theorem detected_events_are_justified :
  forall (self : DisasterEnvironment.t) (w : World),
  exists new self' w',
    DisasterEnvironment.detect_disasters self w = (Ok (new, self'), w') /\
    DisasterEnvironment.locations self' = DisasterEnvironment.locations self /\
    DisasterEnvironment.conditions self'
    = DisasterEnvironment.conditions self /\
    (List.length new
     <= 3 * List.length (DisasterEnvironment.conditions self))%nat /\
    Forall (fun e =>
              DisasterEvent.active e = true /\
              RegistryProps.justified (DisasterEnvironment.conditions self) e /\
              DisasterEvent.disaster_type e <> DisasterType.NONE /\
              DisasterEvent.severity e <> SeverityLevel.NONE)
           new.
Proof.
  intros self w.
  destruct (DetectionFacts.detect_disasters_full self w)
    as (new & w' & E & K & [A _] & _).
  eexists new, _, w'. split; [exact E |].
  split; [reflexivity |]. split; [reflexivity |]. split.
  - rewrite <- (length_map DetectorProps.content), K.
    apply DetectionFacts.expected_length.
  - rewrite Forall_forall in *. intros e He.
    assert (J : RegistryProps.justified
                  (DisasterEnvironment.conditions self) e).
    { apply DetectionFacts.content_justified. rewrite <- K.
      now apply in_map. }
    split; [now apply A |]. split; [exact J |].
    destruct J as (c & _ & [(T & _ & S) | [(T & _ & S) | (T & _ & S)]]);
      rewrite T, S; split;
      try discriminate; apply DetectionFacts.bucket_not_none.
Qed.

(** A condition that holds is reported again by the next detection: two
    detections in a row on the same conditions return events of the same
    content, and the store ends up holding both series. *)
Theorem detection_repeats_standing_events :
  forall (self : DisasterEnvironment.t) (w : World),
  exists new1 self1 w1 new2 self2 w2,
    DisasterEnvironment.detect_disasters self w = (Ok (new1, self1), w1) /\
    DisasterEnvironment.detect_disasters self1 w1 = (Ok (new2, self2), w2) /\
    map DetectorProps.content new2 = map DetectorProps.content new1 /\
    DisasterEnvironment.active_disasters self2
    = DisasterEnvironment.active_disasters self ++ new1 ++ new2 /\
    DisasterEnvironment.event_history self2
    = DisasterEnvironment.event_history self ++ new1 ++ new2.
Proof.
  intros self w.
  destruct (DetectionFacts.detect_disasters_full self w)
    as (new1 & w1 & E1 & K1 & _).
  match type of E1 with _ = (Ok (_, ?s1), _) =>
    destruct (DetectionFacts.detect_disasters_full s1 w1)
      as (new2 & w2 & E2 & K2 & _)
  end.
  eexists new1, _, w1, new2, _, w2.
  split; [exact E1 |]. split; [exact E2 |].
  cbn [DisasterEnvironment.conditions DisasterEnvironment.active_disasters
       DisasterEnvironment.event_history] in *.
  split; [congruence |]. now rewrite <- !app_assoc.
Qed.

(* ------------------------------------------------------------------ *)
(** ** Further properties: the environment *)

Module RegistryFacts.
Import DisasterEnvironment SimulatorProps ClockProps RegistryProps StoreProps.

(** [w'] is [w] after [n] words were drawn and nothing else. *)
Lemma advance_6 (w : World) :
  let w' := advance (advance (advance (advance (advance (advance w))))) in
  drawn w' = (drawn w + 6)%nat /\ entropy w' = entropy w /\
  clock w' = clock w /\ read w' = read w /\ trace w' = trace w.
Proof. cbn. repeat split. lia. Qed.

(** The loop of [update_conditions]: every record is replaced by its
    perturbed version, under the same key. *)
Lemma update_loop_rel
    (items : list (Location.t * EnvironmentalConditions.t)) :
  forall w : World,
  exists cs w',
    for_each (fun kv => c <- EnvironmentalConditions.update (snd kv) ;;
                        ret (fst kv, c))
             items w = (Ok cs, w') /\
    Forall2 (fun kv kv' =>
               fst kv' = fst kv /\
               exists w0, snd kv' = perturbed (snd kv) w0)
            items cs /\
    drawn w' = (drawn w + 6 * List.length items)%nat /\
    entropy w' = entropy w /\ clock w' = clock w /\ read w' = read w /\
    trace w' = trace w.
Proof.
  induction items as [| [loc c] rest IH]; intros w.
  - exists [], w. split; [reflexivity |]. split; [constructor |].
    cbn. repeat split. lia.
  - pose proof (advance_6 w) as A. cbv zeta in A.
    set (w1 := advance (advance (advance (advance (advance (advance w))))))
      in *.
    destruct A as (A1 & A2 & A3 & A4 & A5).
    destruct (IH w1) as (cs & w' & E & F & D1 & D2 & D3 & D4 & D5).
    exists ((loc, perturbed c w) :: cs), w'. split; [| split].
    + cbn [for_each].
      erewrite bind_ok
        by (erewrite bind_ok by apply SimulatorFacts.update_eq; reflexivity).
      erewrite bind_ok by exact E. reflexivity.
    + constructor; [| exact F]. split; [reflexivity |]. now exists w.
    + cbn [List.length]. repeat split; try congruence. lia.
Qed.

Lemma update_conditions_full (self : t) (w : World) :
  exists cs w',
    update_conditions self w
    = (Ok (mk (locations self) cs (active_disasters self)
              (event_history self)), w') /\
    Forall2 (fun kv kv' =>
               fst kv' = fst kv /\
               exists w0, snd kv' = perturbed (snd kv) w0)
            (conditions self) cs /\
    drawn w' = (drawn w + 6 * List.length (conditions self))%nat /\
    entropy w' = entropy w /\ clock w' = clock w /\ read w' = read w /\
    trace w' = trace w ++ [Called "update_conditions"].
Proof.
  destruct (update_loop_rel (conditions self)
              (logged (Called "update_conditions") w))
    as (cs & w' & E & F & D).
  exists cs, w'. split; [| split; [exact F | exact D]].
  unfold update_conditions.
  erewrite bind_ok by apply emit_eq.
  erewrite bind_ok by exact E. reflexivity.
Qed.

Lemma Forall2_keys
    (items cs : list (Location.t * EnvironmentalConditions.t)) :
  Forall2 (fun kv kv' =>
             fst kv' = fst kv /\
             exists w0, snd kv' = perturbed (snd kv) w0)
          items cs ->
  map fst cs = map fst items.
Proof.
  induction 1 as [| kv kv' items cs [K _] _ IH]; [reflexivity |].
  cbn. now rewrite K, IH.
Qed.

(** What holds of every record is carried over by the loop, provided one
    [update] carries it over. *)
Lemma Forall2_carry (P Q : Location.t * EnvironmentalConditions.t -> Prop)
    (items cs : list (Location.t * EnvironmentalConditions.t)) :
  (forall loc c w0, P (loc, c) -> Q (loc, perturbed c w0)) ->
  Forall2 (fun kv kv' =>
             fst kv' = fst kv /\
             exists w0, snd kv' = perturbed (snd kv) w0)
          items cs ->
  Forall P items -> Forall Q cs.
Proof.
  intros Step F. induction F as [| [l c] [l' c'] items cs [K [w0 E]] _ IH];
    intros HP; [constructor |].
  inversion HP as [| ? ? H1 H2]; subst.
  cbn [fst snd] in K, E. subst l' c'.
  constructor; [now apply Step | now apply IH].
Qed.

Lemma perturbed_in_clamp (c : EnvironmentalConditions.t) (w : World) :
  ConditionProps.in_clamp_range (perturbed c w).
Proof.
  destruct (ConditionFacts.update_in_range c w) as (c' & w' & E & R).
  rewrite SimulatorFacts.update_eq in E. now injection E as <- _.
Qed.
End RegistryFacts.

(** [update_conditions] always returns; it updates every record under its
    own key and in the same order, leaves each record inside the clamp
    ranges and naming the same location, draws six random numbers per
    record, and touches neither the locations nor the two event lists. *)
Theorem update_conditions_keeps_registry :
  forall (self : DisasterEnvironment.t) (w : World),
  exists self' w',
    DisasterEnvironment.update_conditions self w = (Ok self', w') /\
    DisasterEnvironment.locations self' = DisasterEnvironment.locations self /\
    DisasterEnvironment.active_disasters self'
    = DisasterEnvironment.active_disasters self /\
    DisasterEnvironment.event_history self'
    = DisasterEnvironment.event_history self /\
    map fst (DisasterEnvironment.conditions self')
    = map fst (DisasterEnvironment.conditions self) /\
    map (fun kv => EnvironmentalConditions.location (snd kv))
        (DisasterEnvironment.conditions self')
    = map (fun kv => EnvironmentalConditions.location (snd kv))
          (DisasterEnvironment.conditions self) /\
    Forall (fun kv => ConditionProps.in_clamp_range (snd kv))
           (DisasterEnvironment.conditions self') /\
    drawn w'
    = (drawn w + 6 * List.length (DisasterEnvironment.conditions self))%nat.
Proof.
  intros self w.
  destruct (RegistryFacts.update_conditions_full self w)
    as (cs & w' & E & F & D & _).
  eexists. exists w'. split; [exact E |].
  cbn [DisasterEnvironment.locations DisasterEnvironment.conditions
       DisasterEnvironment.active_disasters DisasterEnvironment.event_history].
  repeat split; try exact D.
  - now apply RegistryFacts.Forall2_keys.
  - clear E D. induction F as [| kv kv' items cs [_ [w0 K]] _ IH];
      [reflexivity |].
    cbn [map]. rewrite IH, K. reflexivity.
  - clear E D. induction F as [| kv kv' items cs [_ [w0 K]] _ IH];
      constructor; [| exact IH].
    rewrite K. apply RegistryFacts.perturbed_in_clamp.
Qed.

Module HistoryFacts.
Import DisasterEnvironment SimulatorProps RegistryProps StoreProps
       HistoryProps.

(** The comprehension that builds [self.conditions], with the ranges. *)
Lemma conditions_loop_range (locs : list Location.t) :
  forall w : World,
  exists cs w',
    for_each (fun loc => c <- EnvironmentalConditions.init loc ;; ret (loc, c))
             locs w = (Ok cs, w') /\
    map fst cs = locs /\
    Forall (fun kv =>
              EnvironmentalConditions.location (snd kv) = fst kv /\
              in_initial_range (snd kv)) cs /\
    clock w' = clock w /\ read w' = read w.
Proof.
  induction locs as [| loc rest IH]; intros w.
  - exists [], w. repeat split. constructor.
  - destruct (SimulatorFacts.init_in_range loc w) as (c & E1 & L1 & R1).
    match type of E1 with _ = (_, ?w1) =>
      destruct (IH w1) as (cs & w' & E & Hk & Hr & Hc & Hd)
    end.
    exists ((loc, c) :: cs), w'. split; [| split; [| split]].
    + cbn [for_each].
      erewrite bind_ok by (erewrite bind_ok by exact E1; reflexivity).
      erewrite bind_ok by exact E. reflexivity.
    + cbn. now rewrite Hk.
    + constructor; [split; assumption | exact Hr].
    + split; [rewrite Hc | rewrite Hd]; reflexivity.
Qed.

(** The loop of [_generate_locations] does not read the clock. *)
Lemma generate_keeps_clock `{PyRuntime} (k : nat) :
  forall (a : nat) (acc : list Location.t) (w : World)
         (r : Result (list Location.t)) (w' : World),
  for_loop
    (fun i locations =>
       x <- uniform 0 100 ;;
       y <- uniform 0 100 ;;
       name <- match nth_error location_names i with
               | Some name => ret name
               | None => lift (Raise IndexError)
               end ;;
       ret (locations ++ [Location.init x y name]))
    (seq a k) acc w = (r, w') ->
  clock w' = clock w /\ read w' = read w.
Proof.
  induction k as [| k IH]; intros a acc w r w' E.
  - cbn in E. injection E as _ <-. now split.
  - cbn [seq for_loop] in E.
    destruct (nth_error location_names a) as [n |] eqn:En.
    + erewrite bind_ok in E.
      2:{ erewrite bind_ok by apply uniform_eq.
          erewrite bind_ok by apply uniform_eq.
          reflexivity. }
      apply IH in E. exact E.
    + erewrite bind_raise in E.
      2:{ erewrite bind_ok by apply uniform_eq.
          erewrite bind_ok by apply uniform_eq.
          reflexivity. }
      injection E as _ <-. now split.
Qed.

Lemma init_full `{PyRuntime} (num : Z) (w : World) :
  exists locs cs w',
    init num w = (Ok (mk locs cs [] []), w') /\
    map fst cs = locs /\
    Forall (fun kv =>
              EnvironmentalConditions.location (snd kv) = fst kv /\
              in_initial_range (snd kv)) cs /\
    clock w' = clock w /\ read w' = read w.
Proof.
  destruct (ConstructionFacts.generate_locations_spec num w)
    as (locs & w1 & E1 & _).
  destruct (generate_keeps_clock _ _ _ _ _ _ E1) as [C1 R1].
  destruct (conditions_loop_range locs w1)
    as (cs & w2 & E2 & Hk & Hr & C2 & R2).
  exists locs, cs, w2. split; [| repeat split; try assumption; congruence].
  unfold init.
  erewrite bind_ok by exact E1.
  erewrite bind_ok by exact E2. reflexivity.
Qed.

(** What an operation does to the locations and the conditions. *)
Lemma step_conditions (op : Op) (self : t) (w : World) :
  locations (fst (step op self w)) = locations self /\
  (if is_update op
   then Forall2 (fun kv kv' =>
                   fst kv' = fst kv /\
                   exists w0, snd kv' = perturbed (snd kv) w0)
                (conditions self) (conditions (fst (step op self w)))
   else conditions (fst (step op self w)) = conditions self).
Proof.
  destruct op; unfold step; cbn [is_update].
  - destruct (RegistryFacts.update_conditions_full self w)
      as (cs & w' & E & F & _).
    rewrite E. split; [reflexivity | exact F].
  - destruct (DetectionFacts.detect_disasters_full self w)
      as (new & w' & E & _).
    rewrite E. split; reflexivity.
  - destruct (StoreFacts.simulate_random_disaster_spec self w)
      as (w' & _ & [[_ E] | (event & E & _)]); rewrite E;
      split; reflexivity.
Qed.

Lemma step_well_formed (op : Op) (self : t) (w : World) :
  well_formed self -> well_formed (fst (step op self w)).
Proof.
  intros [K F]. unfold well_formed.
  destruct (step_conditions op self w) as [L C]. rewrite L.
  destruct (is_update op).
  - split.
    + rewrite (RegistryFacts.Forall2_keys _ _ C). exact K.
    + eapply RegistryFacts.Forall2_carry; [| exact C | exact F].
      intros loc c w0 [Hl _]. cbn [fst snd] in *. split; [exact Hl |].
      apply RegistryFacts.perturbed_in_clamp.
  - rewrite C. now split.
Qed.

Lemma steps_well_formed (ops : list Op) :
  forall (self : t) (w : World),
  well_formed self ->
  well_formed (fst (steps ops self w)) /\
  locations (fst (steps ops self w)) = locations self.
Proof.
  induction ops as [| op rest IH]; intros self w Hw.
  - now split.
  - cbn [steps].
    pose proof (step_well_formed op self w Hw) as H1.
    destruct (step_conditions op self w) as [L1 _].
    destruct (step op self w) as [self1 w1]. cbn [fst] in *.
    destruct (IH self1 w1 H1) as [H2 L2]. split; [exact H2 | congruence].
Qed.

Lemma levels_below_le (b b' : Q) (c : EnvironmentalConditions.t) :
  b <= b' -> levels_below b c -> levels_below b' c.
Proof. unfold levels_below. intros Hb [Hw Hs]. split; lra. Qed.

Lemma calm_le (b b' : Q) (self : t) : b <= b' -> calm b self -> calm b' self.
Proof.
  intros Hb. unfold calm. apply Forall_impl.
  intros kv. now apply levels_below_le.
Qed.

Lemma level_after_succ (n : nat) : level_after (S n) == level_after n + 10.
Proof.
  unfold level_after. rewrite Nat2Z.inj_succ. unfold Z.succ.
  rewrite inject_Z_plus. ring.
Qed.

Lemma level_after_nonneg (n : nat) : 0 <= level_after n.
Proof.
  unfold level_after.
  assert (0 <= inject_Z (Z.of_nat n)).
  { change 0 with (inject_Z 0). rewrite <- Zle_Qle. lia. }
  lra.
Qed.

Lemma level_after_le (n m : nat) :
  (n <= m)%nat -> level_after n <= 100 + 10 * inject_Z (Z.of_nat m).
Proof.
  intros H. unfold level_after.
  assert (inject_Z (Z.of_nat n) <= inject_Z (Z.of_nat m)).
  { rewrite <- Zle_Qle. lia. }
  lra.
Qed.

Lemma step_calm (op : Op) (n : nat) (self : t) (w : World) :
  calm (level_after n) self ->
  calm (level_after (if is_update op then S n else n)) (fst (step op self w)).
Proof.
  intros Hc. destruct (step_conditions op self w) as [_ C].
  destruct (is_update op).
  - unfold calm in *.
    eapply RegistryFacts.Forall2_carry; [| exact C | exact Hc].
    intros loc c w0 Hl. cbn [snd] in *.
    eapply levels_below_le;
      [| apply SimulatorFacts.perturbed_levels;
         [apply level_after_nonneg | exact Hl]].
    rewrite level_after_succ. lra.
  - unfold calm in *. now rewrite C.
Qed.

Lemma steps_calm (ops : list Op) :
  forall (n : nat) (self : t) (w : World),
  calm (level_after n) self ->
  calm (level_after (n + updates_in ops)) (fst (steps ops self w)).
Proof.
  induction ops as [| op rest IH]; intros n self w Hc.
  - unfold updates_in. cbn. now rewrite Nat.add_0_r.
  - cbn [steps].
    pose proof (step_calm op n self w Hc) as H1.
    destruct (step op self w) as [self1 w1]. cbn [fst] in H1.
    specialize (IH _ self1 w1 H1).
    unfold updates_in in *. cbn [filter].
    destruct (is_update op); cbn [List.length].
    + now rewrite Nat.add_succ_r.
    + exact IH.
Qed.

Lemma calm_no_event (bound : Q) (self : t) (e : DisasterEvent.t) :
  calm bound self ->
  justified (conditions self) e ->
  (bound <= 150 -> DisasterEvent.disaster_type e <> DisasterType.FLOOD) /\
  (bound <= 300 -> DisasterEvent.disaster_type e <> DisasterType.FIRE).
Proof.
  intros Hc (c & I & J). unfold calm in Hc. rewrite Forall_forall in Hc.
  destruct (Hc _ I) as [Hw Hs]. cbn [snd] in *.
  destruct J as [(T & V & _) | [(T & V & _) | (T & V & _)]]; rewrite T;
    split; intros Hb; try discriminate; exfalso; lra.
Qed.
End HistoryFacts.

(** From construction on, whatever operations are run, the environment
    keeps its locations, and keeps one conditions record per location, in
    registry order, each naming its location and inside the clamp
    ranges. *)
Theorem registry_stays_well_formed `{PyRuntime} (num : Z) (w : World) :
  exists self0 w0,
    DisasterEnvironment.init num w = (Ok self0, w0) /\
    forall ops : list StoreProps.Op,
      let self := fst (StoreProps.steps ops self0 w0) in
      DisasterEnvironment.locations self
      = DisasterEnvironment.locations self0 /\
      RegistryProps.well_formed self /\
      List.length (DisasterEnvironment.conditions self)
      = List.length (DisasterEnvironment.locations self).
Proof.
  destruct (HistoryFacts.init_full num w)
    as (locs & cs & w0 & E & K & R & _).
  eexists. exists w0. split; [exact E |]. intros ops self. subst self.
  assert (W : RegistryProps.well_formed (DisasterEnvironment.mk locs cs [] [])).
  { split; [exact K |]. cbn. revert R. apply Forall_impl.
    intros kv [L I]. split; [exact L |].
    now apply SimulatorFacts.initial_in_clamp. }
  destruct (HistoryFacts.steps_well_formed ops _ w0 W) as [W' L'].
  split; [exact L' |]. split; [exact W' |].
  destruct W' as [K' _]. rewrite <- K'. now rewrite length_map.
Qed.

(** Water and smoke levels start at 100 at most and rise by at most 10 per
    update of the conditions. So, from construction on and whatever else is
    run in between, a detection that follows at most 5 updates returns no
    flood, and one that follows at most 20 updates returns no fire. *)
Theorem no_flood_or_fire_before_enough_updates `{PyRuntime}
    (num : Z) (w : World) :
  exists self0 w0,
    DisasterEnvironment.init num w = (Ok self0, w0) /\
    forall ops : list StoreProps.Op,
    exists new self' w',
      DisasterEnvironment.detect_disasters
        (fst (StoreProps.steps ops self0 w0))
        (snd (StoreProps.steps ops self0 w0)) = (Ok (new, self'), w') /\
      ((HistoryProps.updates_in ops <= 5)%nat ->
       Forall (fun e => DisasterEvent.disaster_type e <> DisasterType.FLOOD)
              new) /\
      ((HistoryProps.updates_in ops <= 20)%nat ->
       Forall (fun e => DisasterEvent.disaster_type e <> DisasterType.FIRE)
              new).
Proof.
  destruct (HistoryFacts.init_full num w)
    as (locs & cs & w0 & E & K & R & _).
  eexists. exists w0. split; [exact E |]. intros ops.
  assert (C0 : HistoryProps.calm (HistoryProps.level_after 0)
                 (DisasterEnvironment.mk locs cs [] [])).
  { unfold HistoryProps.calm. cbn. revert R. apply Forall_impl.
    intros kv [_ (_ & _ & _ & Hw & Hs & _)].
    unfold SimulatorProps.levels_below, HistoryProps.level_after.
    change (inject_Z (Z.of_nat 0)) with 0. split; lra. }
  pose proof (HistoryFacts.steps_calm ops 0 _ w0 C0) as C.
  change (0 + HistoryProps.updates_in ops)%nat
    with (HistoryProps.updates_in ops) in C.
  set (self := fst (StoreProps.steps ops (DisasterEnvironment.mk locs cs [] [])
                      w0)) in *.
  destruct (DetectionFacts.detect_disasters_full self
              (snd (StoreProps.steps ops
                      (DisasterEnvironment.mk locs cs [] []) w0)))
    as (new & w' & E' & Kc & _).
  eexists new, _, w'. split; [exact E' |].
  assert (J : forall e, In e new ->
              RegistryProps.justified (DisasterEnvironment.conditions self) e).
  { intros e He. apply DetectionFacts.content_justified. rewrite <- Kc.
    now apply in_map. }
  split; intros Hn; apply Forall_forall; intros e He.
  - eapply HistoryFacts.calm_no_event; [exact C | now apply J |].
    eapply Qle_trans; [apply (HistoryFacts.level_after_le _ _ Hn) |].
    vm_compute. discriminate.
  - eapply HistoryFacts.calm_no_event; [exact C | now apply J |].
    eapply Qle_trans; [apply (HistoryFacts.level_after_le _ _ Hn) |].
    vm_compute. discriminate.
Qed.

(** Two updates, with a detection in between, after the construction of
    two locations in the sample world: the next detection reports no
    flood. *)
Lemma no_flood_or_fire_before_enough_updates_witness :
  (HistoryProps.updates_in
     [StoreProps.Update; StoreProps.Detect; StoreProps.Update] <= 5)%nat /\
  exists self0 w0,
    @DisasterEnvironment.init Samples.runtime 2 Samples.world
    = (Ok self0, w0) /\
    exists new self' w',
      DisasterEnvironment.detect_disasters
        (fst (StoreProps.steps
                [StoreProps.Update; StoreProps.Detect; StoreProps.Update]
                self0 w0))
        (snd (StoreProps.steps
                [StoreProps.Update; StoreProps.Detect; StoreProps.Update]
                self0 w0)) = (Ok (new, self'), w') /\
      Forall (fun e => DisasterEvent.disaster_type e <> DisasterType.FLOOD)
             new.
Proof.
  assert (H5 : (HistoryProps.updates_in
                  [StoreProps.Update; StoreProps.Detect; StoreProps.Update]
                <= 5)%nat) by (cbn; lia).
  split; [exact H5 |].
  destruct (@no_flood_or_fire_before_enough_updates Samples.runtime 2
              Samples.world) as (self0 & w0 & E & Hops).
  exists self0, w0. split; [exact E |].
  destruct (Hops [StoreProps.Update; StoreProps.Detect; StoreProps.Update])
    as (new & self' & w' & E' & NoFlood & _).
  exists new, self', w'. split; [exact E' | exact (NoFlood H5)].
Defined.

(* ------------------------------------------------------------------ *)
(** ** Further properties: injection and the clock *)

Module InjectionFacts.
Import DisasterEnvironment ClockProps StoreProps InjectionProps.

Lemma simulate_without_locations (self : t) (w : World) :
  locations self = [] ->
  simulate_random_disaster self w
  = (Raise IndexError,
     advance (advance (logged (Called "simulate_random_disaster") w))).
Proof.
  intros El. unfold simulate_random_disaster.
  erewrite bind_ok by apply emit_eq.
  set (w0 := logged (Called "simulate_random_disaster") w).
  destruct (StoreFacts.choice_nonempty
              [DisasterType.FLOOD; DisasterType.EARTHQUAKE;
               DisasterType.FIRE] w0) as (ty & E1 & _); [discriminate |].
  erewrite bind_ok by exact E1.
  destruct (StoreFacts.choice_nonempty
              [SeverityLevel.LOW; SeverityLevel.MEDIUM;
               SeverityLevel.HIGH; SeverityLevel.CRITICAL] (advance w0))
    as (sv & E2 & _); [discriminate |].
  erewrite bind_ok by exact E2.
  rewrite El. reflexivity.
Qed.

Lemma simulate_with_locations (self : t) (w : World) :
  locations self <> [] ->
  exists event w',
    simulate_random_disaster self w
    = (Ok (event, mk (locations self) (conditions self)
                     (active_disasters self ++ [event])
                     (event_history self ++ [event])), w') /\
    In (DisasterEvent.location event) (locations self) /\
    In (DisasterEvent.disaster_type event)
       [DisasterType.FLOOD; DisasterType.EARTHQUAKE; DisasterType.FIRE] /\
    In (DisasterEvent.severity event)
       [SeverityLevel.LOW; SeverityLevel.MEDIUM; SeverityLevel.HIGH;
        SeverityLevel.CRITICAL] /\
    DisasterEvent.active event = true /\
    DisasterEvent.timestamp event = clock w (read w) /\
    after_injection w w'.
Proof.
  intros Hl. unfold simulate_random_disaster.
  erewrite bind_ok by apply emit_eq.
  set (w0 := logged (Called "simulate_random_disaster") w).
  destruct (StoreFacts.choice_nonempty
              [DisasterType.FLOOD; DisasterType.EARTHQUAKE;
               DisasterType.FIRE] w0) as (ty & E1 & I1); [discriminate |].
  erewrite bind_ok by exact E1.
  destruct (StoreFacts.choice_nonempty
              [SeverityLevel.LOW; SeverityLevel.MEDIUM;
               SeverityLevel.HIGH; SeverityLevel.CRITICAL] (advance w0))
    as (sv & E2 & I2); [discriminate |].
  erewrite bind_ok by exact E2.
  destruct (StoreFacts.choice_nonempty (locations self)
              (advance (advance w0))) as (loc & E3 & I3); [exact Hl |].
  erewrite bind_ok by exact E3.
  eexists. eexists. split; [reflexivity |].
  cbn [DisasterEvent.location DisasterEvent.disaster_type
       DisasterEvent.severity DisasterEvent.active DisasterEvent.timestamp].
  split; [exact I3 |]. split; [exact I1 |]. split; [exact I2 |].
  split; [reflexivity |]. split; [reflexivity |].
  unfold after_injection. cbn. repeat split. lia.
Qed.

(** What an operation adds to the lists, with the clock. *)
Lemma step_stamped (op : Op) (self : t) (w : World) :
  exists added,
    active_disasters (fst (step op self w))
    = active_disasters self ++ added /\
    event_history (fst (step op self w)) = event_history self ++ added /\
    stamped w added /\
    read (snd (step op self w)) = (read w + List.length added)%nat /\
    clock (snd (step op self w)) = clock w.
Proof.
  destruct op; unfold step.
  - destruct (RegistryFacts.update_conditions_full self w)
      as (cs & w' & E & _ & _ & _ & C & R & _).
    rewrite E. exists []. cbn [fst snd active_disasters event_history].
    rewrite !app_nil_r. repeat split; try assumption.
    + constructor.
    + cbn. lia.
  - destruct (DetectionFacts.detect_disasters_full self w)
      as (new & w' & E & _ & S & (R & C & _)).
    rewrite E. exists new. cbn [fst snd active_disasters event_history].
    repeat split; try apply S; assumption.
  - destruct (locations self) as [| l ls] eqn:El.
    + rewrite (simulate_without_locations self w El).
      exists []. cbn [fst snd]. rewrite !app_nil_r.
      repeat split; try constructor. cbn. lia.
    + destruct (simulate_with_locations self w)
        as (event & w' & E & _ & _ & _ & A & T & (_ & _ & R & C & _));
        [rewrite El; discriminate |].
      rewrite El in E. rewrite E. exists [event].
      cbn [fst snd active_disasters event_history].
      repeat split; try assumption.
      * repeat constructor. exact A.
      * cbn. now rewrite T.
      * cbn. lia.
Qed.

Lemma steps_stamped (ops : list Op) :
  forall (self : t) (w : World),
  exists added,
    active_disasters (fst (steps ops self w))
    = active_disasters self ++ added /\
    event_history (fst (steps ops self w)) = event_history self ++ added /\
    stamped w added.
Proof.
  induction ops as [| op rest IH]; intros self w.
  - exists []. cbn. rewrite !app_nil_r. repeat split. constructor.
  - cbn [steps].
    destruct (step_stamped op self w) as (a1 & A1 & H1 & S1 & R1 & C1).
    destruct (step op self w) as [self1 w1]. cbn [fst snd] in *.
    destruct (IH self1 w1) as (a2 & A2 & H2 & S2).
    exists (a1 ++ a2). rewrite A2, H2, A1, H1, <- !app_assoc.
    split; [reflexivity |]. split; [reflexivity |].
    destruct S1 as [F1 T1], S2 as [F2 T2]. split.
    + apply Forall_app. now split.
    + rewrite map_app, length_app, seq_app, map_app, T1, T2, R1, C1.
      reflexivity.
Qed.

Lemma readings_sorted (f : nat -> Z) :
  (forall i j, (i <= j)%nat -> (f i <= f j)%Z) ->
  forall n r, StronglySorted Z.le (map f (seq r n)).
Proof.
  intros Hf. induction n as [| n IH]; intros r; cbn [seq map].
  - constructor.
  - constructor; [apply IH |].
    apply Forall_forall. intros t Ht.
    apply in_map_iff in Ht as (i & <- & Hi). apply in_seq in Hi.
    apply Hf. lia.
Qed.
End InjectionFacts.

(** Synthetic injection on an environment without locations raises
    [IndexError] and adds nothing to the store (the type and the severity
    were drawn by then). With at least one location it returns an event
    that is flagged active, stamped with the current clock reading, of
    type flood, earthquake or fire, of severity low to critical, and
    located at one of the environment's locations; that one event is
    appended to both lists and nothing else changes. *)
Theorem injection_outcome (self : DisasterEnvironment.t) (w : World) :
  (DisasterEnvironment.locations self = [] ->
   exists w',
     DisasterEnvironment.simulate_random_disaster self w
     = (Raise IndexError, w') /\
     drawn w' = (drawn w + 2)%nat /\
     fst (StoreProps.step StoreProps.Inject self w) = self) /\
  (DisasterEnvironment.locations self <> [] ->
   exists event self' w',
     DisasterEnvironment.simulate_random_disaster self w
     = (Ok (event, self'), w') /\
     DisasterEnvironment.active_disasters self'
     = DisasterEnvironment.active_disasters self ++ [event] /\
     DisasterEnvironment.event_history self'
     = DisasterEnvironment.event_history self ++ [event] /\
     DisasterEnvironment.locations self' = DisasterEnvironment.locations self /\
     DisasterEnvironment.conditions self'
     = DisasterEnvironment.conditions self /\
     In (DisasterEvent.location event) (DisasterEnvironment.locations self) /\
     In (DisasterEvent.disaster_type event)
        [DisasterType.FLOOD; DisasterType.EARTHQUAKE; DisasterType.FIRE] /\
     In (DisasterEvent.severity event)
        [SeverityLevel.LOW; SeverityLevel.MEDIUM; SeverityLevel.HIGH;
         SeverityLevel.CRITICAL] /\
     DisasterEvent.active event = true /\
     DisasterEvent.timestamp event = clock w (read w) /\
     InjectionProps.after_injection w w').
Proof.
  split.
  - intros El. eexists.
    split; [now apply InjectionFacts.simulate_without_locations |].
    split; [cbn; lia |].
    unfold StoreProps.step.
    now rewrite (InjectionFacts.simulate_without_locations self w El).
  - intros Hl.
    destruct (InjectionFacts.simulate_with_locations self w Hl)
      as (event & w' & E & I3 & I1 & I2 & A & T & W).
    eexists event, _, w'. split; [exact E |].
    cbn [DisasterEnvironment.locations DisasterEnvironment.conditions
         DisasterEnvironment.active_disasters
         DisasterEnvironment.event_history].
    repeat split; try assumption; apply W.
Qed.

(** Injection into the sample environment, which has one location. *)
Lemma injection_outcome_witness :
  DisasterEnvironment.locations Samples.environment <> [] /\
  exists event self' w',
    DisasterEnvironment.simulate_random_disaster Samples.environment
      Samples.world = (Ok (event, self'), w') /\
    DisasterEnvironment.active_disasters self' = [event] /\
    DisasterEvent.location event = Samples.downtown.
Proof.
  assert (H : DisasterEnvironment.locations Samples.environment <> [])
    by discriminate.
  split; [exact H |].
  destruct (injection_outcome Samples.environment Samples.world) as [_ Some].
  destruct (Some H) as (event & self' & w' & E & A & _ & _ & _ & I & _).
  exists event, self', w'. split; [exact E |]. split; [exact A |].
  destruct I as [I | []]. now symmetry.
Defined.

(** From construction on, whatever operations are run, the events of the
    history are all flagged active and carry, in order, the successive
    readings of the clock taken since construction (which reads none); so
    with a clock that never goes back the history is in chronological
    order. *)
Theorem history_is_chronological `{PyRuntime} (num : Z) (w : World) :
  exists self0 w0,
    DisasterEnvironment.init num w = (Ok self0, w0) /\
    forall ops : list StoreProps.Op,
      let history :=
        DisasterEnvironment.event_history
          (fst (StoreProps.steps ops self0 w0)) in
      ClockProps.stamped w history /\
      ((forall i j, (i <= j)%nat -> (clock w i <= clock w j)%Z) ->
       StronglySorted Z.le (map DisasterEvent.timestamp history)).
Proof.
  destruct (HistoryFacts.init_full num w)
    as (locs & cs & w0 & E & _ & _ & C & R).
  eexists. exists w0. split; [exact E |]. intros ops history.
  destruct (InjectionFacts.steps_stamped ops
              (DisasterEnvironment.mk locs cs [] []) w0)
    as (added & _ & Hh & S).
  cbn [DisasterEnvironment.event_history app] in Hh.
  subst history. rewrite Hh.
  assert (S' : ClockProps.stamped w added).
  { destruct S as [F T]. split; [exact F |]. now rewrite T, C, R. }
  split; [exact S' |].
  intros Mono. destruct S' as [_ T]. rewrite T.
  now apply InjectionFacts.readings_sorted.
Qed.

(** The clock of the sample world counts up from 1000. *)
Lemma history_is_chronological_witness :
  (forall i j, (i <= j)%nat ->
               (clock Samples.world i <= clock Samples.world j)%Z) /\
  exists self0 w0,
    @DisasterEnvironment.init Samples.runtime 1 Samples.world
    = (Ok self0, w0) /\
    StronglySorted Z.le
      (map DisasterEvent.timestamp
           (DisasterEnvironment.event_history
              (fst (StoreProps.steps
                      [StoreProps.Inject; StoreProps.Inject] self0 w0)))).
Proof.
  assert (M : forall i j, (i <= j)%nat ->
                          (clock Samples.world i <= clock Samples.world j)%Z).
  { intros i j Hij. unfold Samples.world. cbn [clock]. lia. }
  split; [exact M |].
  destruct (@history_is_chronological Samples.runtime 1 Samples.world)
    as (self0 & w0 & E & Hops).
  exists self0, w0. split; [exact E |].
  destruct (Hops [StoreProps.Inject; StoreProps.Inject]) as [_ Sorted].
  exact (Sorted M).
Defined.

(* ------------------------------------------------------------------ *)
(** ** Further properties: the monitoring tick *)

Module LogFacts.
Import EnvironmentMonitoringBehaviour TickProps LogProps.

Lemma same_configuration_refl (agent : SensorAgent.t) :
  same_configuration agent agent.
Proof. repeat split. Qed.

Lemma same_configuration_trans (a b c : SensorAgent.t) :
  same_configuration a b -> same_configuration b c -> same_configuration a c.
Proof.
  intros (A1 & A2 & A3 & A4 & A5) (B1 & B2 & B3 & B4 & B5).
  repeat split; congruence.
Qed.

Lemma reports_for_same (a b : SensorAgent.t) (evs : list DisasterEvent.t) :
  same_configuration a b -> reports_for b evs = reports_for a evs.
Proof.
  intros (J & _ & _ & C & _). unfold reports_for, recipient.
  now rewrite J, C.
Qed.

Lemma reports_for_app (a : SensorAgent.t) (e1 e2 : list DisasterEvent.t) :
  reports_for a (e1 ++ e2) = reports_for a e1 ++ reports_for a e2.
Proof.
  unfold reports_for. destruct (recipient a); [apply map_app | reflexivity].
Qed.

Lemma sent_reports (a : SensorAgent.t) (evs : list DisasterEvent.t) :
  sent (reports_for a evs) = reports_for a evs.
Proof.
  unfold reports_for, sent. destruct (recipient a); [| reflexivity].
  induction evs as [| e evs IH]; [reflexivity |].
  cbn [map filter is_sent]. now rewrite IH.
Qed.

Lemma sent_app (t1 t2 : list Effect) : sent (t1 ++ t2) = sent t1 ++ sent t2.
Proof. apply filter_app. Qed.

Lemma grown_refl (agent : SensorAgent.t) : grown agent agent [].
Proof.
  unfold grown. cbn [map]. rewrite !app_nil_r.
  repeat split.
Qed.

Lemma grown_trans (a b c : SensorAgent.t) (e1 e2 : list DisasterEvent.t) :
  grown a b e1 -> grown b c e2 -> grown a c (e1 ++ e2).
Proof.
  intros (C1 & L1 & A1 & H1 & D1) (C2 & L2 & A2 & H2 & D2).
  unfold grown. rewrite map_app, !app_assoc.
  split; [eapply same_configuration_trans; eassumption |].
  repeat split; congruence.
Qed.

Lemma report_full (agent : SensorAgent.t) (disaster : DisasterEvent.t)
    (w : World) :
  exists w',
    _report_disaster agent disaster w = (Ok tt, w') /\
    trace w' = trace w ++ reports_for agent [disaster] /\
    entropy w' = entropy w /\ drawn w' = drawn w.
Proof.
  unfold _report_disaster, reports_for, recipient.
  destruct (SensorAgent.coordinator_jid agent) as [[| c to] |].
  - exists w. rewrite app_nil_r. repeat split.
  - eexists. split; [apply emit_eq |]. repeat split.
  - exists w. rewrite app_nil_r. repeat split.
Qed.

Lemma logged_event_grown (agent : SensorAgent.t) (d : DisasterEvent.t) :
  same_configuration agent (_log_disaster_event agent d) /\
  SensorAgent.environment (_log_disaster_event agent d)
  = SensorAgent.environment agent /\
  SensorAgent.detected_events (_log_disaster_event agent d)
  = SensorAgent.detected_events agent ++ [log_entry d].
Proof. repeat split. Qed.

(** The loop that logs and reports the events [new]. *)
Lemma report_loop_full (new : list DisasterEvent.t) :
  forall (agent : SensorAgent.t) (w : World),
  exists agent' w',
    for_loop (fun disaster agent =>
                let agent := _log_disaster_event agent disaster in
                _report_disaster agent disaster ;;; ret agent)
             new agent w = (Ok agent', w') /\
    same_configuration agent agent' /\
    SensorAgent.environment agent' = SensorAgent.environment agent /\
    SensorAgent.detected_events agent'
    = SensorAgent.detected_events agent ++ map log_entry new /\
    trace w' = trace w ++ reports_for agent new /\
    entropy w' = entropy w /\ drawn w' = drawn w.
Proof.
  induction new as [| d rest IH]; intros agent w.
  - exists agent, w. split; [reflexivity |].
    split; [apply same_configuration_refl |].
    unfold reports_for. destruct (recipient agent); cbn [map];
      rewrite !app_nil_r; repeat split.
  - destruct (logged_event_grown agent d) as (C1 & V1 & D1).
    destruct (report_full (_log_disaster_event agent d) d w)
      as (w1 & E1 & T1 & G1 & R1).
    destruct (IH (_log_disaster_event agent d) w1)
      as (agent' & w' & E & C & V & D & T & G & R).
    exists agent', w'. split.
    + cbn [for_loop]. cbv zeta.
      erewrite bind_ok by (erewrite bind_ok by exact E1; reflexivity).
      exact E.
    + split; [exact (same_configuration_trans _ _ _ C1 C) |].
      split; [congruence |]. split.
      { rewrite D, D1. cbn [map]. now rewrite <- app_assoc. }
      split.
      { rewrite T, T1, !(reports_for_same _ _ _ C1).
        change (d :: rest) with ([d] ++ rest).
        now rewrite reports_for_app, app_assoc. }
      split; congruence.
Qed.

Lemma monitor_full (agent : SensorAgent.t) (w : World) :
  exists new agent1 w1,
    monitor agent w = (Ok agent1, w1) /\
    grown agent agent1 new /\
    trace w1
    = trace w ++ Called "update_conditions" :: Called "detect_disasters"
                 :: reports_for agent new.
Proof.
  unfold monitor.
  erewrite bind_ok by reflexivity.
  match goal with |- context [bind _ _ ?w0] => set (wa := w0) end.
  destruct (RegistryFacts.update_conditions_full
              (SensorAgent.environment agent) wa)
    as (cs & wb & Eb & _ & _ & _ & _ & _ & Tb).
  erewrite bind_ok by exact Eb.
  unfold DisasterEnvironment.get_all_conditions. cbv zeta.
  match goal with |- context [DisasterEnvironment.detect_disasters ?e] =>
    destruct (DetectionFacts.detect_disasters_full e wb)
      as (new & wc & Ec & _ & _ & (_ & _ & _ & _ & Tc))
  end.
  erewrite bind_ok by exact Ec.
  cbv beta iota zeta.
  match goal with |- context [for_loop _ new ?a wc] =>
    destruct (report_loop_full new a wc)
      as (agent1 & w1 & E1 & C & V & D & T & _)
  end.
  exists new, agent1, w1. split; [exact E1 |]. split.
  - unfold grown. rewrite V, D. cbn. repeat split; apply C.
  - rewrite T, Tc. cbn [logged trace]. rewrite Tb. subst wa. cbn [trace].
    rewrite (reports_for_same agent _ new) by (repeat split).
    now rewrite <- !app_assoc.
Qed.

Lemma gate_decided (agent : SensorAgent.t) (w : World) :
  gate_open agent w \/ gate_closed agent w.
Proof.
  unfold gate_open, gate_closed.
  destruct (SensorAgent.simulate_disasters agent); [| now right; left].
  destruct (Nat.ltb_spec (active_count agent) 3); [| now right; right; left].
  destruct (Qlt_le_dec (next_draw w) (1 # 10)); [left | right; right; right];
    auto.
Qed.

Lemma gate_exclusive (agent : SensorAgent.t) (w : World) :
  gate_open agent w -> gate_closed agent w -> False.
Proof.
  intros (S & C & D) [F | [F | F]]; [congruence | lia | lra].
Qed.

Lemma stimulate_closed (agent : SensorAgent.t) (w : World) :
  gate_closed agent w ->
  exists w', stimulate agent w = (Ok agent, w') /\ trace w' = trace w.
Proof.
  intros G. unfold stimulate. fold (active_count agent).
  destruct (SensorAgent.simulate_disasters agent) eqn:Es; cbn [andb];
    [| now exists w].
  destruct (Nat.ltb_spec (active_count agent) 3) as [Hc | Hc]; [| now exists w].
  erewrite bind_ok by apply random_eq.
  destruct (Qltb_spec (next_draw w) float_0_1) as [Hd | Hd].
  - apply draw_below_tenth in Hd.
    destruct G as [F | [F | F]]; [congruence | lia | exfalso; lra].
  - now exists (advance w).
Qed.

Lemma stimulate_open (agent : SensorAgent.t) (w : World) :
  gate_open agent w ->
  stimulate agent w
  = ('(simulated, environment) <-
       DisasterEnvironment.simulate_random_disaster
         (SensorAgent.environment agent) ;;
     let agent := SensorAgent.set_environment agent environment in
     let agent := _log_disaster_event agent simulated in
     _report_disaster agent simulated ;;; ret agent) (advance w).
Proof.
  intros (Es & Hc & Hd). unfold stimulate. fold (active_count agent).
  rewrite Es. cbn [andb].
  destruct (Nat.ltb_spec (active_count agent) 3) as [_ | F]; [| lia].
  erewrite bind_ok by apply random_eq.
  destruct (Qltb_spec (next_draw w) float_0_1) as [_ | F]; [reflexivity |].
  exfalso. apply F. now apply draw_below_tenth.
Qed.

Lemma stimulate_open_empty (agent : SensorAgent.t) (w : World) :
  gate_open agent w ->
  DisasterEnvironment.locations (SensorAgent.environment agent) = [] ->
  exists w',
    stimulate agent w = (Raise IndexError, w') /\
    trace w' = trace w ++ [Called "simulate_random_disaster"].
Proof.
  intros G El. rewrite (stimulate_open agent w G).
  eexists. split.
  - erewrite bind_raise
      by now apply InjectionFacts.simulate_without_locations.
    reflexivity.
  - reflexivity.
Qed.

Lemma stimulate_open_some (agent : SensorAgent.t) (w : World) :
  gate_open agent w ->
  DisasterEnvironment.locations (SensorAgent.environment agent) <> [] ->
  exists event agent2 w',
    stimulate agent w = (Ok agent2, w') /\
    grown agent agent2 [event] /\
    trace w'
    = trace w ++ Called "simulate_random_disaster"
                 :: reports_for agent [event].
Proof.
  intros G Hl. rewrite (stimulate_open agent w G).
  destruct (InjectionFacts.simulate_with_locations
              (SensorAgent.environment agent) (advance w) Hl)
    as (event & w1 & E1 & _ & _ & _ & _ & _ & (_ & _ & _ & _ & T1)).
  erewrite bind_ok by exact E1. cbv beta iota zeta.
  match goal with |- context [_report_disaster ?a ?d] =>
    destruct (report_full a d w1) as (w2 & E2 & T2 & _)
  end.
  erewrite bind_ok by exact E2.
  eexists event, _, w2. split; [reflexivity |]. split.
  - unfold grown. cbn. repeat split.
  - rewrite T2, T1, trace_advance.
    match goal with |- context [reports_for ?a [event]] =>
      rewrite (reports_for_same agent a [event]) by (repeat split)
    end.
    now rewrite <- app_assoc.
Qed.
End LogFacts.

Module TickCases.
Import EnvironmentMonitoringBehaviour TickProps LogProps.

(** The three ways a tick can end. *)
Lemma run_cases (agent : SensorAgent.t) (w : World) :
  exists new agent1 w1 r w',
    monitor agent w = (Ok agent1, w1) /\
    grown agent agent1 new /\
    trace w1
    = trace w ++ Called "update_conditions" :: Called "detect_disasters"
                 :: reports_for agent new /\
    run agent w = (r, w') /\
    ((gate_closed agent1 w1 /\ r = Ok agent1 /\ trace w' = trace w1) \/
     (gate_open agent1 w1 /\
      DisasterEnvironment.locations (SensorAgent.environment agent) = [] /\
      r = Raise IndexError /\
      trace w' = trace w1 ++ [Called "simulate_random_disaster"]) \/
     (gate_open agent1 w1 /\
      DisasterEnvironment.locations (SensorAgent.environment agent) <> [] /\
      exists event agent2,
        r = Ok agent2 /\ grown agent agent2 (new ++ [event]) /\
        trace w'
        = trace w1 ++ Called "simulate_random_disaster"
                      :: reports_for agent [event])).
Proof.
  destruct (LogFacts.monitor_full agent w)
    as (new & agent1 & w1 & E1 & G1 & T1).
  assert (L1 : DisasterEnvironment.locations (SensorAgent.environment agent1)
               = DisasterEnvironment.locations (SensorAgent.environment agent))
    by apply G1.
  assert (R : run agent w = stimulate agent1 w1).
  { unfold run. now erewrite bind_ok by exact E1. }
  destruct (LogFacts.gate_decided agent1 w1) as [Open | Closed].
  - destruct (DisasterEnvironment.locations (SensorAgent.environment agent))
      as [| l ls] eqn:El.
    + destruct (LogFacts.stimulate_open_empty agent1 w1 Open L1)
        as (w' & E2 & T2).
      exists new, agent1, w1, (Raise IndexError), w'.
      rewrite R. split; [exact E1 |]. split; [exact G1 |].
      split; [exact T1 |]. split; [exact E2 |].
      right. left. split; [exact Open |]. split; [reflexivity |].
      split; [reflexivity | exact T2].
    + destruct (LogFacts.stimulate_open_some agent1 w1 Open)
        as (event & agent2 & w' & E2 & G2 & T2);
        [rewrite L1; discriminate |].
      exists new, agent1, w1, (Ok agent2), w'.
      rewrite R. split; [exact E1 |]. split; [exact G1 |].
      split; [exact T1 |]. split; [exact E2 |].
      right. right. split; [exact Open |]. split; [discriminate |].
      exists event, agent2. split; [reflexivity |]. split.
      * eapply LogFacts.grown_trans; eassumption.
      * rewrite T2. f_equal. f_equal.
        apply LogFacts.reports_for_same. apply G1.
  - destruct (LogFacts.stimulate_closed agent1 w1 Closed) as (w' & E2 & T2).
    exists new, agent1, w1, (Ok agent1), w'.
    rewrite R. split; [exact E1 |]. split; [exact G1 |].
    split; [exact T1 |]. split; [exact E2 |].
    left. split; [exact Closed |]. split; [reflexivity | exact T2].
Qed.

Lemma sent_of_tick (agent : SensorAgent.t) (tr : list Effect)
    (new : list DisasterEvent.t) :
  sent (tr ++ Called "update_conditions" :: Called "detect_disasters"
              :: reports_for agent new)
  = sent tr ++ reports_for agent new.
Proof.
  rewrite LogFacts.sent_app. f_equal.
  change (reports_for agent new) with ([] ++ reports_for agent new) at 1.
  unfold sent at 1. cbn [filter is_sent].
  apply LogFacts.sent_reports.
Qed.

Lemma reports_without_recipient (agent : SensorAgent.t)
    (evs : list DisasterEvent.t) :
  recipient agent = None -> reports_for agent evs = [].
Proof. intros N. unfold reports_for. now rewrite N. Qed.
End TickCases.

Module SilentFacts.
Import EnvironmentMonitoringBehaviour TickProps LogProps SilentProps.

Lemma logged_all_facts (evs : list DisasterEvent.t) :
  forall agent : SensorAgent.t,
  same_configuration agent (logged_all agent evs) /\
  SensorAgent.environment (logged_all agent evs)
  = SensorAgent.environment agent /\
  SensorAgent.detected_events (logged_all agent evs)
  = SensorAgent.detected_events agent ++ map log_entry evs.
Proof.
  induction evs as [| d rest IH]; intros agent.
  - cbn. rewrite app_nil_r. repeat split.
  - destruct (IH (_log_disaster_event agent d)) as (C & V & D).
    unfold logged_all in *. cbn [fold_left map].
    split; [exact C |]. split; [exact V |].
    rewrite D. cbn. now rewrite <- app_assoc.
Qed.

(** Without a recipient a report does nothing at all. *)
Lemma report_silent (agent : SensorAgent.t) (d : DisasterEvent.t)
    (w : World) :
  recipient agent = None -> _report_disaster agent d w = (Ok tt, w).
Proof.
  unfold recipient, _report_disaster.
  destruct (SensorAgent.coordinator_jid agent) as [[| c to] |];
    [reflexivity | discriminate | reflexivity].
Qed.

Lemma report_loop_silent (new : list DisasterEvent.t) :
  forall (agent : SensorAgent.t) (w : World),
  recipient agent = None ->
  for_loop (fun disaster agent =>
              let agent := _log_disaster_event agent disaster in
              _report_disaster agent disaster ;;; ret agent)
           new agent w = (Ok (logged_all agent new), w).
Proof.
  induction new as [| d rest IH]; intros agent w N; [reflexivity |].
  cbn [for_loop]. cbv zeta.
  erewrite bind_ok
    by (erewrite bind_ok by (apply report_silent; exact N); reflexivity).
  now apply IH.
Qed.

(** What [monitor] does for an agent without recipient. *)
Lemma monitor_silent (agent : SensorAgent.t) (w : World) :
  recipient agent = None ->
  exists cs w1 new w2,
    let env := SensorAgent.environment agent in
    let env1 := DisasterEnvironment.mk
                  (DisasterEnvironment.locations env) cs
                  (DisasterEnvironment.active_disasters env)
                  (DisasterEnvironment.event_history env) in
    let env2 := DisasterEnvironment.mk
                  (DisasterEnvironment.locations env) cs
                  (DisasterEnvironment.active_disasters env ++ new)
                  (DisasterEnvironment.event_history env ++ new) in
    DisasterEnvironment.update_conditions env (after_now w) = (Ok env1, w1) /\
    DisasterEnvironment.detect_disasters env1 w1 = (Ok (new, env2), w2) /\
    monitor agent w
    = (Ok (logged_all (SensorAgent.set_environment agent env2) new), w2) /\
    only_calls (trace w) (trace w2).
Proof.
  intros N.
  destruct (RegistryFacts.update_conditions_full
              (SensorAgent.environment agent) (after_now w))
    as (cs & w1 & E1 & _ & _ & _ & _ & _ & T1).
  match type of E1 with _ = (Ok ?e1, _) =>
    destruct (DetectionFacts.detect_disasters_full e1 w1)
      as (new & w2 & E2 & _ & _ & (_ & _ & _ & _ & T2))
  end.
  exists cs, w1, new, w2. cbv zeta.
  split; [exact E1 |]. split; [exact E2 |]. split.
  - unfold monitor.
    erewrite bind_ok by reflexivity.
    fold (after_now w).
    erewrite bind_ok by exact E1.
    unfold DisasterEnvironment.get_all_conditions. cbv zeta.
    erewrite bind_ok by exact E2. cbv beta iota zeta.
    now apply report_loop_silent.
  - exists ["update_conditions"; "detect_disasters"]%string.
    rewrite T2. cbn [logged trace]. rewrite T1. cbn [after_now trace map].
    now rewrite <- app_assoc.
Qed.
End SilentFacts.

(** A tick of an agent without recipient that completes has updated the
    conditions, stored what the detection on the updated conditions
    returned, then -- exactly when stimulus mode is on, fewer than 3
    events are active after the detection and the draw is below 0.1 --
    the event of one synthetic injection; the active list and the history
    grew by these events in that order, the event log by one entry per
    such event in the same order, and configuration and locations are as
    before. *)
Theorem tick_stores_and_logs_detected_then_injected
    (agent agent' : SensorAgent.t) (w w' : World) :
  LogProps.recipient agent = None ->
  EnvironmentMonitoringBehaviour.run agent w = (Ok agent', w') ->
  exists env1 w1 new env2 w2 injected,
    DisasterEnvironment.update_conditions (SensorAgent.environment agent)
      (SilentProps.after_now w) = (Ok env1, w1) /\
    DisasterEnvironment.detect_disasters env1 w1 = (Ok (new, env2), w2) /\
    ((LogProps.gate_closed (SensorAgent.set_environment agent env2) w2 /\
      injected = []) \/
     (LogProps.gate_open (SensorAgent.set_environment agent env2) w2 /\
      exists event env3 w3,
        DisasterEnvironment.simulate_random_disaster env2 (advance w2)
        = (Ok (event, env3), w3) /\
        injected = [event])) /\
    DisasterEnvironment.active_disasters (SensorAgent.environment agent')
    = DisasterEnvironment.active_disasters (SensorAgent.environment agent)
      ++ new ++ injected /\
    DisasterEnvironment.event_history (SensorAgent.environment agent')
    = DisasterEnvironment.event_history (SensorAgent.environment agent)
      ++ new ++ injected /\
    DisasterEnvironment.conditions (SensorAgent.environment agent')
    = DisasterEnvironment.conditions env1 /\
    DisasterEnvironment.locations (SensorAgent.environment agent')
    = DisasterEnvironment.locations (SensorAgent.environment agent) /\
    SensorAgent.detected_events agent'
    = SensorAgent.detected_events agent
      ++ map LogProps.log_entry (new ++ injected) /\
    LogProps.same_configuration agent agent'.
Proof.
  intros N Hrun.
  destruct (SilentFacts.monitor_silent agent w N)
    as (cs & w1 & new & w2 & E1 & E2 & M & _). cbv zeta in E1, E2, M.
  set (env := SensorAgent.environment agent) in *.
  set (env2 := DisasterEnvironment.mk
                 (DisasterEnvironment.locations env) cs
                 (DisasterEnvironment.active_disasters env ++ new)
                 (DisasterEnvironment.event_history env ++ new)) in *.
  set (agent1 := SilentProps.logged_all
                   (SensorAgent.set_environment agent env2) new) in *.
  destruct (SilentFacts.logged_all_facts new
              (SensorAgent.set_environment agent env2)) as (C1 & V1 & D1).
  fold agent1 in C1, V1, D1. cbn in V1, D1.
  assert (R : EnvironmentMonitoringBehaviour.run agent w
              = EnvironmentMonitoringBehaviour.stimulate agent1 w2).
  { unfold EnvironmentMonitoringBehaviour.run.
    now erewrite bind_ok by exact M. }
  rewrite R in Hrun.
  assert (Gate : forall P : SensorAgent.t -> World -> Prop,
            (P = LogProps.gate_open \/ P = LogProps.gate_closed) ->
            P agent1 w2 -> P (SensorAgent.set_environment agent env2) w2).
  { intros P [-> | ->]; unfold LogProps.gate_open, LogProps.gate_closed,
      TickProps.active_count; rewrite V1;
      destruct C1 as (_ & _ & _ & _ & S1); rewrite S1; auto. }
  eexists _, w1, new, env2, w2.
  destruct (LogFacts.gate_decided agent1 w2) as [Open | Closed].
  - rewrite (LogFacts.stimulate_open agent1 w2 Open) in Hrun.
    rewrite V1 in Hrun.
    destruct (DisasterEnvironment.locations env2) as [| l ls] eqn:El.
    + rewrite (InjectionFacts.simulate_without_locations env2 _ El) in Hrun
        || (erewrite bind_raise in Hrun
              by (now apply InjectionFacts.simulate_without_locations)).
      discriminate Hrun.
    + destruct (InjectionFacts.simulate_with_locations env2 (advance w2))
        as (event & w3 & E3 & _); [rewrite El; discriminate |].
      erewrite bind_ok in Hrun by exact E3. cbv beta iota zeta in Hrun.
      erewrite bind_ok in Hrun
        by (apply SilentFacts.report_silent;
            unfold LogProps.recipient in *; cbn;
            destruct C1 as (_ & _ & _ & Cj & _); now rewrite Cj).
      injection Hrun as <- _.
      exists [event].
      split; [exact E1 |]. split; [exact E2 |]. split.
      { right. split; [apply Gate; auto |].
        eexists event, _, w3. split; [exact E3 | reflexivity]. }
      cbn. rewrite D1, map_app, <- !app_assoc.
      repeat split; apply C1.
  - destruct (LogFacts.stimulate_closed agent1 w2 Closed) as (w3 & E3 & _).
    rewrite E3 in Hrun. injection Hrun as <- _.
    exists [].
    split; [exact E1 |]. split; [exact E2 |]. split.
    { left. split; [apply Gate; auto | reflexivity]. }
    rewrite V1, D1, !app_nil_r. cbn.
    repeat split; apply C1.
Qed.

(** A tick of the sample agent, stimulus on: the detected fire, then the
    injected event, are stored and logged. *)
Lemma tick_stores_and_logs_detected_then_injected_witness :
  LogProps.recipient (Samples.agent true) = None /\
  exists agent' w',
    EnvironmentMonitoringBehaviour.run (Samples.agent true) Samples.world
    = (Ok agent', w') /\
    exists added,
      DisasterEnvironment.active_disasters (SensorAgent.environment agent')
      = added /\
      SensorAgent.detected_events agent' = map LogProps.log_entry added.
Proof.
  assert (N : LogProps.recipient (Samples.agent true) = None) by reflexivity.
  split; [exact N |].
  assert (Hrun : exists a w0,
             EnvironmentMonitoringBehaviour.run (Samples.agent true)
               Samples.world = (Ok a, w0))
    by (eexists; eexists; vm_compute; reflexivity).
  destruct Hrun as (a & w0 & Erun).
  exists a, w0. split; [exact Erun |].
  destruct (tick_stores_and_logs_detected_then_injected _ _ _ _ N Erun)
    as (env1 & w1 & new & env2 & w2 & injected & _ & _ & _ & A & _ & _ & _
        & D & _).
  exists (new ++ injected). split; [exact A | exact D].
Defined.

(** A tick of an agent without recipient (none configured, or the empty
    string) hands nothing to the transport, however it ends: what it adds
    to the trace are calls of environment methods only. *)
Theorem tick_without_recipient_sends_nothing (agent : SensorAgent.t)
    (w : World) :
  LogProps.recipient agent = None ->
  exists r w',
    EnvironmentMonitoringBehaviour.run agent w = (r, w') /\
    LogProps.sent (trace w') = LogProps.sent (trace w) /\
    SilentProps.only_calls (trace w) (trace w').
Proof.
  intros N.
  destruct (TickCases.run_cases agent w)
    as (new & agent1 & w1 & r & w' & _ & _ & T1 & R & Cases).
  exists r, w'. split; [exact R |].
  rewrite (TickCases.reports_without_recipient _ _ N) in T1.
  assert (T' : exists tail,
             trace w' = trace w1 ++ map Called tail).
  { destruct Cases
      as [(_ & _ & T) | [(_ & _ & _ & T) | (_ & _ & ev & a2 & _ & _ & T)]].
    - exists []. cbn. now rewrite app_nil_r.
    - now exists ["simulate_random_disaster"%string].
    - rewrite (TickCases.reports_without_recipient _ _ N) in T.
      now exists ["simulate_random_disaster"%string]. }
  destruct T' as (tail & T').
  assert (O : SilentProps.only_calls (trace w) (trace w')).
  { exists (["update_conditions"; "detect_disasters"]%string ++ tail).
    rewrite T', T1, map_app. cbn [map app]. now rewrite <- app_assoc. }
  split; [| exact O].
  destruct O as (methods & ->). rewrite LogFacts.sent_app.
  assert (Z : LogProps.sent (map Called methods) = []).
  { clear. induction methods as [| m ms IH]; [reflexivity | exact IH]. }
  rewrite Z. apply app_nil_r.
Qed.

(** The sample agent has no recipient: its tick sends nothing. *)
Lemma tick_without_recipient_sends_nothing_witness :
  LogProps.recipient (Samples.agent true) = None /\
  exists r w',
    EnvironmentMonitoringBehaviour.run (Samples.agent true) Samples.world
    = (r, w') /\
    LogProps.sent (trace w') = [].
Proof.
  assert (N : LogProps.recipient (Samples.agent true) = None) by reflexivity.
  split; [exact N |].
  destruct (tick_without_recipient_sends_nothing (Samples.agent true)
              Samples.world N) as (r & w' & E & S & _).
  exists r, w'. split; [exact E | exact S].
Defined.

(** The one way a tick of an agent without recipient can fail: it raises
    exactly when the stimulus gate is open -- stimulus mode on, fewer than
    3 active events after detection, draw below 0.1 -- and the environment
    has no location to inject at; the exception is then [IndexError]. With
    at least one location the tick completes. *)
Theorem silent_tick_fails_only_injecting_without_location
    (agent : SensorAgent.t) (w : World) :
  LogProps.recipient agent = None ->
  exists agent1 w1 r w',
    EnvironmentMonitoringBehaviour.monitor agent w = (Ok agent1, w1) /\
    EnvironmentMonitoringBehaviour.run agent w = (r, w') /\
    ((exists e, r = Raise e) <->
     (LogProps.gate_open agent1 w1 /\
      DisasterEnvironment.locations (SensorAgent.environment agent) = [])) /\
    (forall e, r = Raise e -> e = IndexError) /\
    (DisasterEnvironment.locations (SensorAgent.environment agent) <> [] ->
     exists agent', r = Ok agent').
Proof.
  intros _.
  destruct (TickCases.run_cases agent w)
    as (new & agent1 & w1 & r & w' & M & _ & _ & R & Cases).
  exists agent1, w1, r, w'. split; [exact M |]. split; [exact R |].
  destruct Cases
    as [(Cl & E & _) | [(Op & El & E & _) | (Op & Hl & ev & a2 & E & _)]];
    rewrite E.
  - split; [split |]; [intros [e F]; discriminate F | | split].
    + intros [Op _]. exfalso. eapply LogFacts.gate_exclusive; eassumption.
    + intros e F. discriminate F.
    + intros _. now exists agent1.
  - split; [split |]; [intros _; now split | intros _; now eexists | split].
    + intros e F. now injection F as <-.
    + intros Hl. contradiction.
  - split; [split |]; [intros [e F]; discriminate F | | split].
    + intros [_ El]. contradiction.
    + intros e F. discriminate F.
    + intros _. now exists a2.
Qed.

(** A tick of the sample agent, which has a location and no recipient,
    completes. *)
Lemma silent_tick_fails_only_injecting_without_location_witness :
  (LogProps.recipient (Samples.agent true) = None /\
   DisasterEnvironment.locations
     (SensorAgent.environment (Samples.agent true)) <> []) /\
  exists agent' w',
    EnvironmentMonitoringBehaviour.run (Samples.agent true) Samples.world
    = (Ok agent', w').
Proof.
  assert (N : LogProps.recipient (Samples.agent true) = None) by reflexivity.
  assert (Hl : DisasterEnvironment.locations
                 (SensorAgent.environment (Samples.agent true)) <> [])
    by discriminate.
  split; [split; assumption |].
  destruct (silent_tick_fails_only_injecting_without_location
              (Samples.agent true) Samples.world N)
    as (a1 & w1 & r & w' & _ & R & _ & _ & Some).
  destruct (Some Hl) as (agent' & Er). rewrite Er in R.
  now exists agent', w'.
Defined.

Module RunFacts.
Import EnvironmentMonitoringBehaviour LogProps RunProps.

(** What a tick that completes has done to store, log and reports. *)
Lemma run_grown (agent agent' : SensorAgent.t) (w w' : World) :
  run agent w = (Ok agent', w') ->
  exists added,
    grown agent agent' added /\
    sent (trace w') = sent (trace w) ++ reports_for agent added.
Proof.
  intros Hrun.
  destruct (TickCases.run_cases agent w)
    as (new & agent1 & w1 & r & w2 & _ & G1 & T1 & R & Cases).
  rewrite Hrun in R. injection R as <- <-.
  destruct Cases
    as [(_ & E & T) | [(_ & _ & E & _) | (_ & _ & ev & a2 & E & G2 & T)]];
    try discriminate E; injection E as ->.
  - exists new. split; [exact G1 |].
    now rewrite T, T1, TickCases.sent_of_tick.
  - exists (new ++ [ev]). split; [exact G2 |].
    rewrite T, LogFacts.sent_app, T1, TickCases.sent_of_tick.
    rewrite LogFacts.reports_for_app, <- app_assoc. f_equal. f_equal.
    change (Called "simulate_random_disaster" :: reports_for agent [ev])
      with ([Called "simulate_random_disaster"] ++ reports_for agent [ev]).
    rewrite LogFacts.sent_app. cbn [sent filter is_sent app].
    apply LogFacts.sent_reports.
Qed.

Lemma ticks_grown (n : nat) :
  forall (agent agent' : SensorAgent.t) (w w' : World),
  ticks n agent w = (Ok agent', w') ->
  exists added,
    grown agent agent' added /\
    sent (trace w') = sent (trace w) ++ reports_for agent added.
Proof.
  induction n as [| n IH]; intros agent agent' w w' E.
  - cbn in E. injection E as <- <-. exists []. split.
    + apply LogFacts.grown_refl.
    + unfold reports_for. destruct (recipient agent); cbn [map];
        now rewrite app_nil_r.
  - cbn [ticks] in E. unfold bind in E.
    destruct (run agent w) as [[a1 | e] w1] eqn:E1; [| discriminate E].
    destruct (run_grown _ _ _ _ E1) as (add1 & G1 & S1).
    destruct (IH _ _ _ _ E) as (add2 & G2 & S2).
    exists (add1 ++ add2). split.
    + eapply LogFacts.grown_trans; eassumption.
    + rewrite S2, S1, LogFacts.reports_for_app, <- app_assoc.
      f_equal. f_equal. apply LogFacts.reports_for_same. apply G1.
Qed.
End RunFacts.

(** For an agent built without recipient (none, or the empty string),
    from construction on and as long as the ticks complete, store and
    event log stay aligned and nothing is handed to the transport: history
    and active list are the same sequence, the event log has one entry per
    stored event, in order, and configuration and locations are those of
    construction. *)
Theorem silent_ticks_keep_store_and_log_aligned `{PyRuntime}
    (jid password : string) (num : Z) (interval : Q)
    (coordinator : option string) (simulate : bool) (w : World) :
  coordinator = None \/ coordinator = Some EmptyString ->
  exists agent0 w0,
    SensorAgent.init jid password num interval coordinator simulate w
    = (Ok agent0, w0) /\
    forall (n : nat) (agent : SensorAgent.t) (w' : World),
      RunProps.ticks n agent0 w0 = (Ok agent, w') ->
      let store :=
        DisasterEnvironment.active_disasters (SensorAgent.environment agent)
      in
      DisasterEnvironment.event_history (SensorAgent.environment agent)
      = store /\
      SensorAgent.detected_events agent = map LogProps.log_entry store /\
      LogProps.sent (trace w') = LogProps.sent (trace w0) /\
      LogProps.same_configuration agent0 agent /\
      DisasterEnvironment.locations (SensorAgent.environment agent)
      = DisasterEnvironment.locations (SensorAgent.environment agent0).
Proof.
  intros Hc.
  destruct (ConstructionFacts.init_spec num w) as (locs & cs & w0 & E & _).
  eexists. exists w0. split.
  { unfold SensorAgent.init. erewrite bind_ok by exact E. reflexivity. }
  intros n agent w' Hn store. subst store.
  destruct (RunFacts.ticks_grown n _ _ _ _ Hn)
    as (added & (C & L & A & Hh & D) & S).
  cbn in A, Hh, D, L. rewrite A, Hh, D, S.
  assert (N : LogProps.reports_for
                (SensorAgent.mk jid num interval coordinator simulate
                   (DisasterEnvironment.mk locs cs [] []) [])
                added = []).
  { apply TickCases.reports_without_recipient.
    unfold LogProps.recipient. cbn. now destruct Hc as [-> | ->]. }
  rewrite N, app_nil_r.
  repeat split; try apply C; assumption.
Qed.

(** Two ticks of an agent built without recipient in the sample world
    complete, and its log then mirrors its store. *)
Lemma silent_ticks_keep_store_and_log_aligned_witness :
  (@None string = None \/ @None string = Some EmptyString) /\
  exists agent0 w0 agent w',
    @SensorAgent.init Samples.runtime "sensor" "secret" 2 5 None true
                      Samples.world = (Ok agent0, w0) /\
    RunProps.ticks 2 agent0 w0 = (Ok agent, w') /\
    SensorAgent.detected_events agent
    = map LogProps.log_entry
          (DisasterEnvironment.active_disasters
             (SensorAgent.environment agent)).
Proof.
  assert (Hc : @None string = None \/ @None string = Some EmptyString)
    by (left; reflexivity).
  split; [exact Hc |].
  destruct (@silent_ticks_keep_store_and_log_aligned Samples.runtime
              "sensor" "secret" 2 5 None true Samples.world Hc)
    as (agent0 & w0 & E & H).
  assert (Hrun : exists a w1, RunProps.ticks 2 agent0 w0 = (Ok a, w1)).
  { assert (E0 : exists a0 w00,
               @SensorAgent.init Samples.runtime "sensor" "secret" 2 5 None true
                                 Samples.world = (Ok a0, w00) /\
               exists a w1, RunProps.ticks 2 a0 w00 = (Ok a, w1))
      by (eexists; eexists; split;
          [vm_compute; reflexivity
          | eexists; eexists; vm_compute; reflexivity]).
    destruct E0 as (a0 & w00 & E0 & R0). rewrite E0 in E.
    injection E as <- <-. exact R0. }
  destruct Hrun as (a & w1 & Erun).
  exists agent0, w0, a, w1. split; [exact E |]. split; [exact Erun |].
  destruct (H 2%nat a w1 Erun) as (_ & D & _). exact D.
Defined.

(* ------------------------------------------------------------------ *)
(** ** Further properties: severity scales and the location registry *)

(** On a scale whose maximum differs from the threshold, a value exactly
    at the threshold is graded low, not none. On an inverted scale, whose
    maximum is below the threshold, the ratio is never positive, so every
    value at or above the threshold is graded low and no value is graded
    above low. *)
Theorem severity_on_degenerate_scales (value threshold max_value : Q) :
  (~ max_value == threshold ->
   DisasterEnvironment._calculate_severity threshold threshold max_value
   = Ok SeverityLevel.LOW) /\
  (max_value < threshold -> threshold <= value ->
   DisasterEnvironment._calculate_severity value threshold max_value
   = Ok SeverityLevel.LOW) /\
  (max_value < threshold ->
   exists s,
     DisasterEnvironment._calculate_severity value threshold max_value
     = Ok s /\
     SeverityProps.severity_le s SeverityLevel.LOW).
Proof.
  assert (Inv : max_value < threshold -> threshold <= value ->
                DisasterEnvironment._calculate_severity value threshold
                  max_value = Ok SeverityLevel.LOW).
  { intros Hm Hv.
    rewrite SeverityFacts.severity_by_ratio by lra.
    f_equal. apply SeverityFacts.bucket_cases.
    assert (H0 : 0 <= (value - threshold) / (threshold - max_value))
      by (apply Qle_shift_div_l; lra).
    assert (Heq : (value - threshold) / (max_value - threshold)
                  == - ((value - threshold) / (threshold - max_value)))
      by (field; split; intro; lra).
    rewrite Heq. lra. }
  split; [| split; [exact Inv |]].
  - intros Hm.
    rewrite SeverityFacts.severity_by_ratio by (lra || assumption).
    f_equal. apply SeverityFacts.bucket_cases.
    setoid_replace (threshold - threshold) with 0 by ring.
    unfold Qdiv. rewrite Qmult_0_l. reflexivity.
  - intros Hm. destruct (Qlt_le_dec value threshold) as [Hv | Hv].
    + exists SeverityLevel.NONE.
      split; [now apply SeverityFacts.severity_below |].
      unfold SeverityProps.severity_le. cbn. lia.
    + exists SeverityLevel.LOW. split; [now apply Inv |].
      unfold SeverityProps.severity_le. lia.
Qed.

(** A scale from 10 down to 5: the value 20 is graded low. *)
Lemma severity_on_degenerate_scales_witness :
  (5 < 10 /\ 10 <= 20) /\
  DisasterEnvironment._calculate_severity 20 10 5 = Ok SeverityLevel.LOW.
Proof.
  assert (H1 : 5 < 10) by reflexivity.
  assert (H2 : 10 <= 20) by (vm_compute; discriminate).
  split; [split; assumption |].
  destruct (severity_on_degenerate_scales 20 10 5) as (_ & H & _).
  exact (H H1 H2).
Defined.

Module SquareFacts.
Import DisasterEnvironment RunProps.

(** The loop of [_generate_locations]: two draws per location, and
    coordinates inside the square. *)
Lemma generate_loop_square `{PyRuntime} (k : nat) :
  forall (a : nat) (acc : list Location.t) (w : World)
         (locs : list Location.t) (w' : World),
  for_loop
    (fun i locations =>
       x <- uniform 0 100 ;;
       y <- uniform 0 100 ;;
       name <- match nth_error location_names i with
               | Some name => ret name
               | None => lift (Raise IndexError)
               end ;;
       ret (locations ++ [Location.init x y name]))
    (seq a k) acc w = (Ok locs, w') ->
  Forall in_square acc ->
  Forall in_square locs /\ drawn w' = (drawn w + 2 * k)%nat.
Proof.
  induction k as [| k IH]; intros a acc w locs w' E Hacc.
  - cbn in E. injection E as <- <-. split; [exact Hacc | lia].
  - cbn [seq for_loop] in E.
    destruct (nth_error location_names a) as [n |] eqn:En.
    + erewrite bind_ok in E.
      2:{ erewrite bind_ok by apply uniform_eq.
          erewrite bind_ok by apply uniform_eq.
          reflexivity. }
      apply IH in E.
      * destruct E as [F D]. split; [exact F |]. rewrite D. cbn. lia.
      * apply Forall_app. split; [exact Hacc |].
        constructor; [| constructor].
        pose proof (SimulatorFacts.next_draw_range w).
        pose proof (SimulatorFacts.next_draw_range (advance w)).
        unfold in_square. cbn [Location.init Location.x Location.y].
        split; split; lra.
    + erewrite bind_raise in E.
      2:{ erewrite bind_ok by apply uniform_eq.
          erewrite bind_ok by apply uniform_eq.
          reflexivity. }
      discriminate E.
Qed.
End SquareFacts.

(** [_generate_locations] always returns; the locations it returns carry
    the first min(num, 10) built-in names, in the order of the list, have
    both coordinates in [0, 100], and cost two random draws each. *)
Theorem generated_locations_are_the_first_names `{PyRuntime}
    (num : Z) (w : World) :
  exists locs w',
    DisasterEnvironment._generate_locations num w = (Ok locs, w') /\
    map Location.str locs
    = firstn (Z.to_nat (Z.min num 10)) DisasterEnvironment.location_names /\
    Forall RunProps.in_square locs /\
    drawn w' = (drawn w + 2 * List.length locs)%nat.
Proof.
  destruct (ConstructionFacts.generate_locations_spec num w)
    as (locs & w' & E & Hn & _).
  exists locs, w'. split; [exact E |]. split; [exact Hn |].
  destruct (SquareFacts.generate_loop_square _ _ _ _ _ _ E (Forall_nil _))
    as [F D].
  split; [exact F |]. rewrite D. f_equal. f_equal.
  rewrite <- (length_map Location.name locs), Hn, length_firstn.
  change (List.length DisasterEnvironment.location_names) with 10%nat.
  lia.
Qed.

(* ------------------------------------------------------------------ *)
(** ** Further concrete cases *)

Module EdgeCases.
(** An agent without locations and with stimulus mode on: the tick of the
    sample world opens the gate and the injection raises. *)
Example tick_of_bare_agent_raises :
  fst (EnvironmentMonitoringBehaviour.run EdgeSamples.bare_agent Samples.world)
  = Raise IndexError.
Proof. vm_compute. reflexivity. Qed.

(** The same agent with stimulus mode off completes its tick. *)
Example tick_of_quiet_bare_agent :
  exists agent,
    fst (EnvironmentMonitoringBehaviour.run
           (SensorAgent.mk "sensor" 0 5 None false
                           (DisasterEnvironment.mk [] [] [] []) [])
           Samples.world)
    = Ok agent.
Proof. eexists. vm_compute. reflexivity. Qed.

(** A recipient that is the empty string counts as none. *)
Example empty_recipient_is_none :
  LogProps.recipient
    (SensorAgent.mk "sensor" 1 5 (Some EmptyString) false
                    Samples.environment [])
  = None.
Proof. reflexivity. Qed.
End EdgeCases.
